(** * Topic service (src/index.js): request handlers over one table

    A shallow embedding of the Express handlers of [src/index.js] and of the
    parts of the JavaScript runtime and of the SQL storage engine they rely
    on, followed by the properties of the handlers.

    Conventions.
    - A JavaScript string is the list of its UTF-16 code units ([list N]);
      [lit] embeds an ASCII literal of the source.
    - A JSON value received in a request is a [value]; numbers are the
      integral ones (a fractional JSON number is outside the model).
    - [req.body] and [req.query] are objects, modelled as finite maps from
      property names to values; reading a missing property gives
      [VUndefined].
    - An exception raised inside a handler's [try] block is an [outcome]
      [Throw msg]; the [catch] turns it into a 500 response.
    - The storage engine is external to the repository.  Its state is the
      contents of the [topics] table; what depends on the server's
      configuration (collation, column capacity, coercion of a string to a
      key) or on its clock is a field of the class [Engine].
    - The handlers of the [topics] table and of the category statistics are
      embedded, and the router over them; the health check, the schema
      initialisation and the banner touch no row and are left out. *)

From Stdlib Require Import ZArith NArith List String Ascii Bool Lia.
From Stdlib Require Import DecimalString DecimalZ DecimalPos.
From Stdlib Require Import Sorting.Sorted.
From stdpp Require Import base gmap strings list.

Open Scope Z_scope.

(** ** JavaScript strings *)

Abbreviation jsstring := (list N).

Fixpoint lit (s : string) : jsstring :=
  match s with
  | EmptyString => []
  | String a r => N_of_ascii a :: lit r
  end.

Arguments lit : simpl never.

(** Code units the handlers look for. *)
Definition cu_lt : N := 60.      (* '<' *)
Definition cu_gt : N := 62.      (* '>' *)
Definition cu_comma : N := 44.   (* ',' *)
Definition cu_T : N := 84.       (* 'T' *)

(** WhiteSpace and LineTerminator of ECMAScript, as removed by [trim]. *)
Definition is_ws (c : N) : bool :=
  ((9 <=? c) && (c <=? 13) || (c =? 32) || (c =? 160) || (c =? 5760)
   || (8192 <=? c) && (c <=? 8202) || (c =? 8232) || (c =? 8233)
   || (c =? 8239) || (c =? 8287) || (c =? 12288) || (c =? 65279))%N.

Fixpoint trimStart (s : jsstring) : jsstring :=
  match s with
  | [] => []
  | c :: r => if is_ws c then trimStart r else s
  end.

Definition trimEnd (s : jsstring) : jsstring := rev (trimStart (rev s)).

(** [String.prototype.trim] *)
Definition trim (s : jsstring) : jsstring := trimEnd (trimStart s).

(** [String.prototype.split] with a separator of one code unit (the source
    splits on [","] and on ["T"]). *)
Fixpoint split (sep : N) (s : jsstring) : list jsstring :=
  match s with
  | [] => [[]]
  | c :: r =>
      if (c =? sep)%N then [] :: split sep r
      else match split sep r with
           | h :: t => (c :: h) :: t
           | [] => [[c]]
           end
  end.

(** Concatenation of already stringified elements with a separator. *)
Fixpoint join_strings (sep : jsstring) (l : list jsstring) : jsstring :=
  match l with
  | [] => []
  | [x] => x
  | x :: r => x ++ sep ++ join_strings sep r
  end.

(** [String.prototype.substring (a, b)] for non-negative integer arguments. *)
Definition substring (a b : nat) (s : jsstring) : jsstring :=
  let lo := Nat.min a b in
  let hi := Nat.max a b in
  firstn (hi - lo) (skipn lo s).

(** *** The regular expression [/<[^>]*>/g]

    [match_tag s] is the length of the match of [<[^>]*>] anchored at the
    start of [s]: the star is greedy, but since it only takes code units
    other than ['>'], the match ends at the first ['>'], and there is none
    when the rest of the string has no ['>']. *)
Fixpoint match_tag_rest (s : jsstring) : option nat :=
  match s with
  | [] => None
  | c :: r => if (c =? cu_gt)%N then Some 1%nat else option_map S (match_tag_rest r)
  end.

Definition match_tag (s : jsstring) : option nat :=
  match s with
  | [] => None
  | c :: r => if (c =? cu_lt)%N then option_map S (match_tag_rest r) else None
  end.

(** [s.replace(/<[^>]*>/g, '')]: scan from the left; where the expression
    matches, drop the match and resume after it; elsewhere keep the code
    unit.  [skip] counts the code units of the current match still to drop. *)
Fixpoint replace_tags_from (skip : nat) (s : jsstring) : jsstring :=
  match s with
  | [] => []
  | c :: r =>
      match skip with
      | S k => replace_tags_from k r
      | O =>
          match match_tag (c :: r) with
          | Some n => replace_tags_from (Nat.pred n) r
          | None => c :: replace_tags_from 0 r
          end
      end
  end.

Definition replace_tags (s : jsstring) : jsstring := replace_tags_from 0 s.

(** ** Numbers as text *)

(** [Number.prototype.toString] on an integer (of magnitude below 10^21,
    beyond which JavaScript prints an exponent). *)
Definition decimal (n : Z) : jsstring := lit (NilZero.string_of_int (Z.to_int n)).

Definition digit_value (radix : N) (c : N) : option Z :=
  let d := (if (48 <=? c) && (c <=? 57) then Some (c - 48)
            else if (97 <=? c) && (c <=? 122) then Some (c - 87)
            else if (65 <=? c) && (c <=? 90) then Some (c - 55)
            else None)%N in
  match d with
  | Some d => if (d <? radix)%N then Some (Z.of_N d) else None
  | None => None
  end.

(** Longest prefix of digits in [radix], read as a number; [None] when the
    prefix is empty. *)
Fixpoint parse_digits (radix : N) (acc : option Z) (s : jsstring) : option Z :=
  match s with
  | [] => acc
  | c :: r =>
      match digit_value radix c with
      | Some d => parse_digits radix (Some (default 0 acc * Z.of_N radix + d)) r
      | None => acc
      end
  end.

(** [parseInt(string)] without a radix argument: leading white space is
    skipped, a sign is read, a [0x] or [0X] prefix selects radix 16, and the
    result is [None] ([NaN]) when no digit follows. *)
Definition parseInt_string (s : jsstring) : option Z :=
  let s := trimStart s in
  let '(sign, s) :=
    match s with
    | c :: r => if (c =? 45)%N then (-1, r) else if (c =? 43)%N then (1, r) else (1, s)
    | [] => (1, s)
    end in
  let '(radix, s) :=
    match s with
    | 48%N :: x :: r => if ((x =? 120) || (x =? 88))%N then (16%N, r) else (10%N, s)
    | _ => (10%N, s)
    end in
  option_map (Z.mul sign) (parse_digits radix None s).

(** ** JavaScript values *)

#[local] Unset Elimination Schemes.
Inductive value :=
| VUndefined
| VNull
| VBool (b : bool)
| VNum (n : Z)
| VNaN
| VStr (s : jsstring)
| VArr (l : list value)
| VObj (props : list (string * value)).
#[local] Set Elimination Schemes.

(** ToBoolean *)
Definition truthy (v : value) : bool :=
  match v with
  | VUndefined | VNull | VNaN => false
  | VBool b => b
  | VNum n => negb (n =? 0)
  | VStr s => match s with [] => false | _ => true end
  | VArr _ | VObj _ => true
  end.

(** [a || b] *)
Definition js_or (a b : value) : value := if truthy a then a else b.


(** ToString; an array is the join of its elements with [","], where
    [undefined] and [null] elements give the empty string. *)
Fixpoint ToString (v : value) : jsstring :=
  match v with
  | VUndefined => lit "undefined"
  | VNull => lit "null"
  | VBool true => lit "true"
  | VBool false => lit "false"
  | VNum n => decimal n
  | VNaN => lit "NaN"
  | VStr s => s
  | VArr l =>
      join_strings (lit ",")
        ((fix elems (l : list value) : list jsstring :=
            match l with
            | [] => []
            | x :: r =>
                match x with
                | VUndefined | VNull => []
                | _ => ToString x
                end :: elems r
            end) l)
  | VObj _ => lit "[object Object]"
  end.

Definition element_string (v : value) : jsstring :=
  match v with
  | VUndefined | VNull => []
  | _ => ToString v
  end.

(** [Array.prototype.join (sep)] *)
Definition join (l : list value) (sep : jsstring) : jsstring :=
  join_strings sep (map element_string l).

(** [parseInt(v)]: the argument is first converted to a string. *)
Definition parseInt (v : value) : value :=
  match parseInt_string (ToString v) with
  | Some n => VNum n
  | None => VNaN
  end.

(** [o.p] on a request object. *)
Definition prop (o : gmap string value) (p : string) : value :=
  default VUndefined (o !! p).

(** ** Exceptions *)

Inductive outcome (A : Type) :=
| Return (a : A)
| Throw (msg : jsstring).
Arguments Return {A} a.
Arguments Throw {A} msg.

Definition bind {A B} (m : outcome A) (k : A -> outcome B) : outcome B :=
  match m with
  | Return a => k a
  | Throw e => Throw e
  end.

Notation "'let!' x ':=' m 'in' k" := (bind m (fun x => k))
  (at level 10, x name, m at level 100, k at level 200).
Notation "'let!' ' p ':=' m 'in' k" := (bind m (fun p => k))
  (at level 10, p pattern, m at level 100, k at level 200).

(** [content.replace(/<[^>]*>/g, '')]: only a string has a [replace]
    method; on any other value the call raises a TypeError. *)
Definition call_replace_tags (content : value) : outcome jsstring :=
  match content with
  | VStr s => Return (replace_tags s)
  | _ => Throw (lit "content.replace is not a function")
  end.

(** ** The storage engine

    The table of lines 48-59 of the source.  [title] is [NOT NULL]; the
    other text columns are nullable; [views] and [helpful] are 32-bit
    integers. *)

Record row := {
  row_id : Z;
  row_title : jsstring;
  row_category : option jsstring;
  row_keywords : option jsstring;
  row_preview : option jsstring;
  row_content : option jsstring;
  row_author : option jsstring;
  row_created_date : option Z;
  row_views : Z;
  row_helpful : Z
}.

Record table := {
  rows : list row;
  auto_increment : Z
}.

(** The row with one counter set. *)
Definition with_views (n : Z) (r : row) : row :=
  {| row_id := row_id r; row_title := row_title r;
     row_category := row_category r; row_keywords := row_keywords r;
     row_preview := row_preview r; row_content := row_content r;
     row_author := row_author r; row_created_date := row_created_date r;
     row_views := n; row_helpful := row_helpful r |}.

Definition with_helpful (n : Z) (r : row) : row :=
  {| row_id := row_id r; row_title := row_title r;
     row_category := row_category r; row_keywords := row_keywords r;
     row_preview := row_preview r; row_content := row_content r;
     row_author := row_author r; row_created_date := row_created_date r;
     row_views := row_views r; row_helpful := n |}.

(** Keys are handed out by the counter: every row's key is below it. *)
Definition table_wf (t : table) : Prop :=
  Forall (fun r => row_id r < auto_increment t) (rows t).

Inductive coltype := VARCHAR (n : nat) | TEXT.

Definition INT_MAX : Z := 2147483647.

(** What the handlers leave to the configuration of the server: pattern
    matching and equality of text under the table's collation, the
    comparison of the integer key with a string parameter, and whether a
    text fits a column (the server runs in strict mode: what does not fit
    is an error).  [CURRENT_TIMESTAMP] is read from the clock of the server,
    not from that of the request: [current_timestamp now] is what the
    server's clock shows, in milliseconds, for a statement sent at [now].
    The laws are that a key compares equal to its own decimal spelling and
    to no other integer's, and that a [TIMESTAMP] holds whole seconds. *)
Class Engine := {
  sql_like : jsstring -> jsstring -> bool;
  sql_text_eq : jsstring -> jsstring -> bool;
  sql_key_eq : Z -> jsstring -> bool;
  sql_fits : coltype -> jsstring -> bool;
  current_timestamp : Z -> Z;
  sql_key_eq_decimal : forall i j, sql_key_eq i (decimal j) = (i =? j);
  current_timestamp_seconds : forall now, current_timestamp now mod 1000 = 0
}.

(** [Date.prototype.toISOString] on a time in milliseconds. *)
Class Runtime := {
  toISOString : Z -> jsstring
}.

Inductive cond := LikeAny | CategoryEq.

Inductive statement :=
| SelectTopics (conditions : list cond) (limited : bool)
| SelectById
| InsertTopic
| IncrementViews
| IncrementHelpful
| UpdateTopic
| DeleteTopic
| CategoryStats.

Definition render_cond (c : cond) : jsstring :=
  match c with
  | LikeAny => lit "(title LIKE ? OR keywords LIKE ? OR content LIKE ?)"
  | CategoryEq => lit "category = ?"
  end.

(** The text of each statement the engine is sent. *)
Definition render (st : statement) : jsstring :=
  match st with
  | SelectTopics conditions limited =>
      lit "SELECT * FROM topics"
      ++ match conditions with
         | [] => []
         | _ => lit " WHERE " ++ join_strings (lit " AND ") (map render_cond conditions)
         end
      ++ lit " ORDER BY created_date DESC"
      ++ (if limited then lit " LIMIT ?" else [])
  | SelectById => lit "SELECT * FROM topics WHERE id = ?"
  | InsertTopic =>
      lit "INSERT INTO topics (title, category, keywords, preview, content, author) VALUES (?, ?, ?, ?, ?, ?)"
  | IncrementViews => lit "UPDATE topics SET views = views + 1 WHERE id = ?"
  | IncrementHelpful => lit "UPDATE topics SET helpful = helpful + 1 WHERE id = ?"
  | UpdateTopic =>
      lit "UPDATE topics SET title = ?, category = ?, keywords = ?, preview = ?, content = ?, author = ? WHERE id = ?"
  | DeleteTopic => lit "DELETE FROM topics WHERE id = ?"
  | CategoryStats =>
      lit "SELECT category, COUNT(*) as count FROM topics GROUP BY category ORDER BY count DESC"
  end.

Definition statements : list statement :=
  [ SelectById; InsertTopic; IncrementViews; IncrementHelpful; UpdateTopic;
    DeleteTopic; CategoryStats ]
  ++ flat_map (fun cs => [SelectTopics cs false; SelectTopics cs true])
       [ []; [LikeAny]; [CategoryEq]; [LikeAny; CategoryEq] ].

Definition parse_sql (sql : jsstring) : option statement :=
  List.find (fun st => bool_decide (render st = sql)) statements.

Inductive query_result :=
| Rows (rs : list row)
| Counts (groups : list (option jsstring * Z))
| Header (insertId : Z).

(** *** Parameters

    The driver writes [undefined] and [null] as [NULL], a string as a quoted
    text, a number in decimal and a boolean as [true] or [false], which a
    text column stores as ["1"] or ["0"].  It expands an array or an object
    into a list of SQL terms, which changes the shape of the statement: the
    model covers scalar parameters and reports an error for those. *)
Definition sql_text (v : value) : outcome (option jsstring) :=
  match v with
  | VUndefined | VNull => Return None
  | VStr s => Return (Some s)
  | VNum n => Return (Some (decimal n))
  | VBool b => Return (Some (lit (if b then "1" else "0")))
  | VNaN => Throw (lit "Unknown column 'NaN' in 'field list'")
  | VArr _ | VObj _ => Throw (lit "You have an error in your SQL syntax")
  end.

Section Storage.
Context {E : Engine}.

(** [id = ?] *)
Definition sql_key (v : value) : outcome (row -> bool) :=
  match v with
  | VUndefined | VNull => Return (fun _ => false)
  | VStr s => Return (fun r => sql_key_eq (row_id r) s)
  | VNum n => Return (fun r => row_id r =? n)
  | VBool b => Return (fun r => row_id r =? (if b then 1 else 0))
  | VNaN => Throw (lit "Unknown column 'NaN' in 'where clause'")
  | VArr _ | VObj _ => Throw (lit "You have an error in your SQL syntax")
  end.

Definition check_fit (ty : coltype) (column : string) (v : option jsstring)
  : outcome (option jsstring) :=
  match v with
  | None => Return None
  | Some s =>
      if sql_fits ty s then Return (Some s)
      else Throw (lit "Data too long for column '" ++ lit column ++ lit "'")
  end.

Definition check_not_null (column : string) (v : option jsstring) : outcome jsstring :=
  match v with
  | Some s => Return s
  | None => Throw (lit "Column '" ++ lit column ++ lit "' cannot be null")
  end.

(** [x LIKE ?] on a nullable column: [NULL] matches nothing. *)
Definition like_opt (x : option jsstring) (pattern : jsstring) : bool :=
  match x with
  | Some s => sql_like s pattern
  | None => false
  end.

Definition eq_opt (x : option jsstring) (y : jsstring) : bool :=
  match x with
  | Some s => sql_text_eq s y
  | None => false
  end.

(** Rows in descending [created_date], [NULL] last; rows with equal dates
    keep their table order (the engine leaves that order open). *)
Definition date_geb (a b : option Z) : bool :=
  match a, b with
  | _, None => true
  | None, Some _ => false
  | Some x, Some y => y <=? x
  end.

Fixpoint insert_by {A} (geb : A -> A -> bool) (x : A) (l : list A) : list A :=
  match l with
  | [] => [x]
  | y :: r => if geb x y then x :: l else y :: insert_by geb x r
  end.

Definition sort_desc {A} (geb : A -> A -> bool) (l : list A) : list A :=
  fold_right (insert_by geb) [] l.

(** [GROUP BY category] with [COUNT( * )], groups in order of first
    appearance. *)
Definition same_category (a b : option jsstring) : bool :=
  match a, b with
  | None, None => true
  | Some x, Some y => sql_text_eq x y
  | _, _ => false
  end.

Fixpoint count_in (c : option jsstring) (groups : list (option jsstring * Z))
  : list (option jsstring * Z) :=
  match groups with
  | [] => [(c, 1)]
  | (k, n) :: r => if same_category k c then (k, n + 1) :: r else (k, n) :: count_in c r
  end.

Definition group_by_category (rs : list row) : list (option jsstring * Z) :=
  fold_left (fun groups r => count_in (row_category r) groups) rs [].

(** A row-by-row update: the statement fails as a whole when writing one
    of the selected rows fails. *)
Fixpoint update_where (sel : row -> bool) (f : row -> outcome row) (rs : list row)
  : outcome (list row) :=
  match rs with
  | [] => Return []
  | r :: rest =>
      let! r' := (if sel r then f r else Return r) in
      let! rest' := update_where sel f rest in
      Return (r' :: rest')
  end.

Definition bump (column : string) (n : Z) : outcome Z :=
  if n + 1 <=? INT_MAX then Return (n + 1)
  else Throw (lit "Out of range value for column '" ++ lit column ++ lit "'").

Fixpoint where_conditions (conditions : list cond) (params : list value)
  : outcome ((row -> bool) * list value) :=
  match conditions with
  | [] => Return (fun _ => true, params)
  | LikeAny :: cs =>
      match params with
      | a :: b :: c :: params' =>
          let! pa := sql_text a in
          let! pb := sql_text b in
          let! pc := sql_text c in
          let! '(sel, rest) := where_conditions cs params' in
          Return (fun r =>
                    (match pa with Some p => sql_like (row_title r) p | None => false end
                     || match pb with Some p => like_opt (row_keywords r) p | None => false end
                     || match pc with Some p => like_opt (row_content r) p | None => false end)
                    && sel r, rest)
      | _ => Throw (lit "You have an error in your SQL syntax")
      end
  | CategoryEq :: cs =>
      match params with
      | a :: params' =>
          let! pa := sql_text a in
          let! '(sel, rest) := where_conditions cs params' in
          Return (fun r =>
                    match pa with Some c => eq_opt (row_category r) c | None => false end
                    && sel r, rest)
      | _ => Throw (lit "You have an error in your SQL syntax")
      end
  end.

(** The effect of one statement, sent at time [now], on the table.  An
    INSERT leaves [created_date] to its default (line 56), the server's
    [CURRENT_TIMESTAMP]. *)
Definition exec (st : statement) (params : list value) (now : Z) (t : table)
  : outcome (query_result * table) :=
  match st, params with
  | SelectTopics conditions limited, _ =>
      let! '(sel, rest) := where_conditions conditions params in
      let sorted :=
        sort_desc (fun a b => date_geb (row_created_date a) (row_created_date b))
          (List.filter sel (rows t)) in
      match limited, rest with
      | false, [] => Return (Rows sorted, t)
      | true, [VNum n] =>
          if 0 <=? n then Return (Rows (firstn (Z.to_nat n) sorted), t)
          else Throw (lit "You have an error in your SQL syntax")
      | true, [VNaN] => Throw (lit "Unknown column 'NaN' in 'limit clause'")
      | _, _ => Throw (lit "You have an error in your SQL syntax")
      end
  | SelectById, [key] =>
      let! sel := sql_key key in
      Return (Rows (List.filter sel (rows t)), t)
  | InsertTopic, [title; category; keywords; preview; content; author] =>
      let! title := sql_text title in
      let! category := sql_text category in
      let! keywords := sql_text keywords in
      let! preview := sql_text preview in
      let! content := sql_text content in
      let! author := sql_text author in
      let! title := check_not_null "title" title in
      let! title := check_fit (VARCHAR 255) "title" (Some title) in
      let! category := check_fit (VARCHAR 100) "category" category in
      let! keywords := check_fit TEXT "keywords" keywords in
      let! preview := check_fit TEXT "preview" preview in
      let! content := check_fit TEXT "content" content in
      let! author := check_fit (VARCHAR 100) "author" author in
      if INT_MAX <? auto_increment t then Throw (lit "Failed to read auto-increment value from storage engine")
      else
        let r := {| row_id := auto_increment t;
                    row_title := default [] title;
                    row_category := category;
                    row_keywords := keywords;
                    row_preview := preview;
                    row_content := content;
                    row_author := author;
                    row_created_date := Some (current_timestamp now);
                    row_views := 0;
                    row_helpful := 0 |} in
        Return (Header (auto_increment t),
                {| rows := rows t ++ [r]; auto_increment := auto_increment t + 1 |})
  | IncrementViews, [key] =>
      let! sel := sql_key key in
      let! rs := update_where sel (fun r =>
                   let! n := bump "views" (row_views r) in
                   Return (with_views n r)) (rows t) in
      Return (Header 0, {| rows := rs; auto_increment := auto_increment t |})
  | IncrementHelpful, [key] =>
      let! sel := sql_key key in
      let! rs := update_where sel (fun r =>
                   let! n := bump "helpful" (row_helpful r) in
                   Return (with_helpful n r)) (rows t) in
      Return (Header 0, {| rows := rs; auto_increment := auto_increment t |})
  | UpdateTopic, [title; category; keywords; preview; content; author; key] =>
      let! title := sql_text title in
      let! category := sql_text category in
      let! keywords := sql_text keywords in
      let! preview := sql_text preview in
      let! content := sql_text content in
      let! author := sql_text author in
      let! sel := sql_key key in
      let! rs := update_where sel (fun r =>
                   let! title := check_not_null "title" title in
                   let! title := check_fit (VARCHAR 255) "title" (Some title) in
                   let! category := check_fit (VARCHAR 100) "category" category in
                   let! keywords := check_fit TEXT "keywords" keywords in
                   let! preview := check_fit TEXT "preview" preview in
                   let! content := check_fit TEXT "content" content in
                   let! author := check_fit (VARCHAR 100) "author" author in
                   Return {| row_id := row_id r; row_title := default [] title;
                             row_category := category; row_keywords := keywords;
                             row_preview := preview; row_content := content;
                             row_author := author;
                             row_created_date := row_created_date r;
                             row_views := row_views r; row_helpful := row_helpful r |}) (rows t) in
      Return (Header 0, {| rows := rs; auto_increment := auto_increment t |})
  | DeleteTopic, [key] =>
      let! sel := sql_key key in
      Return (Header 0,
              {| rows := List.filter (fun r => negb (sel r)) (rows t);
                 auto_increment := auto_increment t |})
  | CategoryStats, [] =>
      Return (Counts (sort_desc (fun a b => snd b <=? snd a) (group_by_category (rows t))), t)
  | _, _ => Throw (lit "You have an error in your SQL syntax")
  end.

(** [pool.query(sql, params)] *)
Definition pool_query (sql : jsstring) (params : list value) (now : Z) (t : table)
  : outcome (query_result * table) :=
  match parse_sql sql with
  | Some st => exec st params now t
  | None => Throw (lit "You have an error in your SQL syntax")
  end.

End Storage.

(** ** Responses *)

(** A topic as the API returns it: the columns of the row, with [keywords]
    replaced by a list and [date] added. *)
Record topic := {
  topic_id : Z;
  topic_title : jsstring;
  topic_category : option jsstring;
  topic_keywords : list jsstring;
  topic_preview : option jsstring;
  topic_content : option jsstring;
  topic_author : option jsstring;
  topic_created_date : option Z;
  topic_views : Z;
  topic_helpful : Z;
  topic_date : jsstring
}.

Inductive payload :=
| Topics (l : list topic)                         (* an array of topics *)
| OneTopic (t : topic)
| Success                                         (* { success: true } *)
| Created (id : Z)                                (* { success: true, id } *)
| Error (message : jsstring)                      (* { error: message } *)
| CategoryCounts (l : list (option jsstring * Z)). (* an array of { category, count } *)

Record response := {
  status : Z;
  body : payload
}.

(** [res.json(x)] and [res.status(code).json(x)] *)
Definition json (x : payload) : response := {| status := 200; body := x |}.
Definition status_json (code : Z) (x : payload) : response := {| status := code; body := x |}.

(** The default author, ['Usuário']. *)
Definition Usuario : jsstring := lit "Usu" ++ [225%N] ++ lit "rio".

(** [v !== s] for a string literal [s] *)
Definition strict_ne (v : value) (s : jsstring) : bool :=
  match v with
  | VStr x => negb (bool_decide (x = s))
  | _ => true
  end.

Definition result_rows (res : query_result) : list row :=
  match res with Rows rs => rs | _ => [] end.

Definition result_counts (res : query_result) : list (option jsstring * Z) :=
  match res with Counts l => l | _ => [] end.

Definition insertId (res : query_result) : Z :=
  match res with Header n => n | _ => 0 end.

(** ** The handlers

    [pool] is [None] when no database is configured, and otherwise holds the
    table (created by [POST /api/init]).  A handler takes the pool and the
    time of the request, and returns its response and the pool afterwards. *)

Section Handlers.
Context {E : Engine} {R : Runtime}.

(** [try { ... } catch (error) { res.status(500).json({ error: error.message }) }];
    a statement that fails leaves the table as it was. *)
Definition try_catch (t : table) (m : outcome (response * table))
  : response * option table :=
  match m with
  | Return (res, t') => (res, Some t')
  | Throw message => (status_json 500 (Error message), Some t)
  end.

(** Lines 110-114 and 136-140: the row, with [keywords] split and [date]
    derived. *)
Definition to_topic (now : Z) (r : row) : topic :=
  {| topic_id := row_id r;
     topic_title := row_title r;
     topic_category := row_category r;
     topic_keywords :=
       match row_keywords r with
       | Some (c :: k) => map trim (split cu_comma (c :: k))
       | _ => []
       end;
     topic_preview := row_preview r;
     topic_content := row_content r;
     topic_author := row_author r;
     topic_created_date := row_created_date r;
     topic_views := row_views r;
     topic_helpful := row_helpful r;
     topic_date :=
       match row_created_date r with
       | Some d => hd [] (split cu_T (toISOString d))
       | None => hd [] (split cu_T (toISOString now))
       end |}.

(** Lines 78-106: the statement and parameters of a listing. *)
Definition getTopics_query (query : gmap string value) : jsstring * list value :=
  let sql := lit "SELECT * FROM topics" in
  let params := [] in
  let search := prop query "search" in
  let category := prop query "category" in
  let limit := prop query "limit" in
  let '(sql, params) :=
    if truthy search || (truthy category && strict_ne category (lit "all")) then
      let sql := sql ++ lit " WHERE " in
      let conditions := [] in
      let '(conditions, params) :=
        if truthy search then
          let conditions :=
            conditions ++ [lit "(title LIKE ? OR keywords LIKE ? OR content LIKE ?)"] in
          let searchTerm := VStr (lit "%" ++ ToString search ++ lit "%") in
          (conditions, params ++ [searchTerm; searchTerm; searchTerm])
        else (conditions, params) in
      let '(conditions, params) :=
        if truthy category && strict_ne category (lit "all") then
          (conditions ++ [lit "category = ?"], params ++ [category])
        else (conditions, params) in
      (sql ++ join_strings (lit " AND ") conditions, params)
    else (sql, params) in
  let sql := sql ++ lit " ORDER BY created_date DESC" in
  if truthy limit then (sql ++ lit " LIMIT ?", params ++ [parseInt limit])
  else (sql, params).

(** GET /api/topics *)
Definition getTopics (pool : option table) (now : Z) (query : gmap string value)
  : response * option table :=
  match pool with
  | None => (json (Topics []), None)
  | Some t =>
      try_catch t
        (let '(sql, params) := getTopics_query query in
         let! '(result, t') := pool_query sql params now t in
         let topics := map (to_topic now) (result_rows result) in
         Return (json (Topics topics), t'))
  end.

(** GET /api/topics/:id *)
Definition getTopic (pool : option table) (now : Z) (id : jsstring)
  : response * option table :=
  match pool with
  | None => (status_json 404 (Error (lit "Topic not found")), None)
  | Some t =>
      try_catch t
        (let! '(result, t') :=
           pool_query (lit "SELECT * FROM topics WHERE id = ?") [VStr id] now t in
         match result_rows result with
         | [] => Return (status_json 404 (Error (lit "Topic not found")), t')
         | r :: _ => Return (json (OneTopic (to_topic now r)), t')
         end)
  end.

(** Lines 156-163: the parameters of the INSERT. *)
Definition createTopic_params (body : gmap string value) : outcome (list value) :=
  let title := prop body "title" in
  let category := prop body "category" in
  let keywords := prop body "keywords" in
  let content := prop body "content" in
  let author := prop body "author" in
  let keywordStr :=
    match keywords with
    | VArr l => VStr (join l (lit ", "))
    | _ => js_or keywords (VStr [])
    end in
  let! preview :=
    (if truthy content then
       let! stripped := call_replace_tags content in
       Return (VStr (substring 0 200 stripped ++ lit "..."))
     else Return (VStr [])) in
  Return [title; category; keywordStr; preview; content; js_or author (VStr Usuario)].

(** POST /api/topics *)
Definition createTopic (pool : option table) (now : Z) (body : gmap string value)
  : response * option table :=
  match pool with
  | None => (status_json 500 (Error (lit "Database not available")), None)
  | Some t =>
      try_catch t
        (let! params := createTopic_params body in
         let! '(result, t') :=
           pool_query
             (lit "INSERT INTO topics (title, category, keywords, preview, content, author) VALUES (?, ?, ?, ?, ?, ?)")
             params now t in
         Return (json (Created (insertId result)), t'))
  end.

(** Lines 188-194: the parameters of the full UPDATE. *)
Definition updateTopic_params (id : jsstring) (updates : gmap string value)
  : outcome (list value) :=
  let title := prop updates "title" in
  let category := prop updates "category" in
  let keywords := prop updates "keywords" in
  let content := prop updates "content" in
  let author := prop updates "author" in
  let keywordStr :=
    match keywords with
    | VArr l => VStr (join l (lit ", "))
    | _ => js_or keywords (VStr [])
    end in
  let! preview :=
    (if truthy content then
       let! stripped := call_replace_tags content in
       Return (VStr (substring 0 200 stripped ++ lit "..."))
     else Return (VStr [])) in
  Return [title; category; keywordStr; preview; content; js_or author (VStr Usuario);
          VStr id].

(** PUT /api/topics/:id *)
Definition updateTopic (pool : option table) (now : Z) (id : jsstring)
    (updates : gmap string value) : response * option table :=
  match pool with
  | None => (status_json 500 (Error (lit "Database not available")), None)
  | Some t =>
      try_catch t
        (let! t' :=
           (if truthy (prop updates "incrementView") then
              let! '(_, t') :=
                pool_query (lit "UPDATE topics SET views = views + 1 WHERE id = ?")
                  [VStr id] now t in
              Return t'
            else if truthy (prop updates "incrementHelpful") then
              let! '(_, t') :=
                pool_query (lit "UPDATE topics SET helpful = helpful + 1 WHERE id = ?")
                  [VStr id] now t in
              Return t'
            else
              let! params := updateTopic_params id updates in
              let! '(_, t') :=
                pool_query
                  (lit "UPDATE topics SET title = ?, category = ?, keywords = ?, preview = ?, content = ?, author = ? WHERE id = ?")
                  params now t in
              Return t') in
         Return (json Success, t'))
  end.

(** DELETE /api/topics/:id *)
Definition deleteTopic (pool : option table) (now : Z) (id : jsstring)
  : response * option table :=
  match pool with
  | None => (status_json 500 (Error (lit "Database not available")), None)
  | Some t =>
      try_catch t
        (let! '(_, t') :=
           pool_query (lit "DELETE FROM topics WHERE id = ?") [VStr id] now t in
         Return (json Success, t'))
  end.

(** GET /api/stats/categories *)
Definition categoryStats (pool : option table) (now : Z) : response * option table :=
  match pool with
  | None => (json (CategoryCounts []), None)
  | Some t =>
      try_catch t
        (let! '(result, t') :=
           pool_query
             (lit "SELECT category, COUNT(*) as count FROM topics GROUP BY category ORDER BY count DESC")
             [] now t in
         Return (json (CategoryCounts (result_counts result)), t'))
  end.

End Handlers.

(** ** The notions of the specification

    What the properties below are stated with.  The specification speaks of
    removing every markup tag, a substring [<...>]: [strips s out] reads
    that declaratively.  A tag runs from a ['<'] to the nearest following
    ['>'], and a code unit is kept when no tag starts at it. *)

Inductive strips : jsstring -> jsstring -> Prop :=
| strips_nil : strips [] []
| strips_tag inner rest out :
    (cu_gt ∉ inner) -> strips rest out ->
    strips (cu_lt :: inner ++ cu_gt :: rest) out
| strips_keep c rest out :
    c <> cu_lt \/ (cu_gt ∉ rest) -> strips rest out ->
    strips (c :: rest) (c :: out).

(** The preview of the specification: markup removed, the first 200 code
    units, and the ellipsis, for a non-empty text; empty otherwise. *)
Definition preview_of (content : value) : jsstring :=
  match content with
  | VStr (c :: s) => firstn 200 (replace_tags (c :: s)) ++ lit "..."
  | _ => []
  end.

(** The preview of the specification, stated without the code's
    replacement: for a non-empty text, the first 200 code units of the text
    with its markup stripped, and the ellipsis; empty otherwise. *)
Definition is_preview_of (content : value) (p : option jsstring) : Prop :=
  match content with
  | VStr (c :: s) =>
      exists stripped, strips (c :: s) stripped /\ p = Some (firstn 200 stripped ++ lit "...")
  | _ => p = Some []
  end.

(** The text of a content, empty when the content is absent. *)
Definition text_of (v : value) : jsstring :=
  match v with
  | VStr s => s
  | _ => []
  end.

(** The ellipsis that follows a non-empty content. *)
Definition ellipsis_of (content : value) : jsstring :=
  match text_of content with
  | [] => []
  | _ => lit "..."
  end.

(** The keywords string of the specification: a list joined with [", "], a
    raw value passed through, or the empty string. *)
Definition keywords_string (keywords : value) : value :=
  match keywords with
  | VArr l => VStr (join l (lit ", "))
  | _ => if truthy keywords then keywords else VStr []
  end.

(** A keyword that survives the trip: no comma in it and no white space
    around it. *)
Definition plain_keyword (k : jsstring) : Prop := (cu_comma ∉ k) /\ trim k = k.

(** A field of the data model that holds a text or is absent. *)
Definition optional_text (v : value) : bool :=
  match v with
  | VUndefined | VNull | VStr _ => true
  | _ => false
  end.



(** The keywords of a topic: the pieces of the stored string between its
    commas, each without the white space around it; none when nothing or
    the empty string is stored. *)
Definition keywords_of (stored : option jsstring) (ks : list jsstring) : Prop :=
  match stored with
  | Some (c :: s) =>
      exists pieces,
        join_strings [cu_comma] pieces = c :: s
        /\ Forall (fun p => cu_comma ∉ p) pieces
        /\ ks = map trim pieces
  | _ => ks = []
  end.

(** The day of an ISO string: what precedes its first ['T'], all of it when
    it has none. *)
Definition day_of (iso day : jsstring) : Prop :=
  (cu_T ∉ day) /\ (iso = day \/ exists rest, iso = day ++ cu_T :: rest).

(** [r'] is [r] with its six text columns rewritten from the parameters of
    a full UPDATE, and the rest as it was. *)
Definition replaced (a b c d e f : value) (r r' : row) : Prop :=
  row_id r' = row_id r
  /\ sql_text a = Return (Some (row_title r'))
  /\ sql_text b = Return (row_category r')
  /\ sql_text c = Return (row_keywords r')
  /\ sql_text d = Return (row_preview r')
  /\ sql_text e = Return (row_content r')
  /\ sql_text f = Return (row_author r')
  /\ row_created_date r' = row_created_date r
  /\ row_views r' = row_views r /\ row_helpful r' = row_helpful r.

Section Notions.
Context {E : Engine}.

(** The rows the key parameter selects. *)
Definition matching (id : jsstring) (t : table) : list row :=
  List.filter (fun r => sql_key_eq (row_id r) id) (rows t).

(** What an update does to a row, by mode. *)
Definition update_effect (id : jsstring) (updates : gmap string value) (r r' : row) : Prop :=
  if truthy (prop updates "incrementView") then
    r' = if sql_key_eq (row_id r) id then with_views (row_views r + 1) r else r
  else if truthy (prop updates "incrementHelpful") then
    r' = if sql_key_eq (row_id r) id then with_helpful (row_helpful r + 1) r else r
  else if sql_key_eq (row_id r) id then
    replaced (prop updates "title") (prop updates "category")
      (keywords_string (prop updates "keywords"))
      (VStr (preview_of (prop updates "content")))
      (prop updates "content")
      (js_or (prop updates "author") (VStr Usuario)) r r'
  else r' = r.

(** Whether the engine takes a value for a column of a type. *)
Definition fits_column (ty : coltype) (v : value) : bool :=
  match sql_text v with
  | Return (Some s) => sql_fits ty s
  | Return None => true
  | Throw _ => false
  end.

End Notions.

Section Topics.
Context {R : Runtime}.

(** The Topic the API returns for a stored row, on a request made at [now]:
    the columns as stored, the keywords as a list, and as [date] the day of
    [created_date] (of the request when the row has no date). *)
Definition is_topic_of (now : Z) (r : row) (tp : topic) : Prop :=
  topic_id tp = row_id r
  /\ topic_title tp = row_title r
  /\ topic_category tp = row_category r
  /\ keywords_of (row_keywords r) (topic_keywords tp)
  /\ topic_preview tp = row_preview r
  /\ topic_content tp = row_content r
  /\ topic_author tp = row_author r
  /\ topic_created_date tp = row_created_date r
  /\ topic_views tp = row_views r
  /\ topic_helpful tp = row_helpful r
  /\ day_of (toISOString (default now (row_created_date r))) (topic_date tp).

End Topics.

(** The keywords and the preview of the topic in a response. *)
Definition response_keywords (res : response) : option (list jsstring) :=
  match body res with
  | OneTopic tp => Some (topic_keywords tp)
  | _ => None
  end.

Definition response_preview (res : response) : option jsstring :=
  match body res with
  | OneTopic tp => topic_preview tp
  | _ => None
  end.

(** ** A reference configuration

    An engine with a binary collation ([LIKE] with [%] and [_], no escape
    character), columns that hold as many code units as declared, and keys
    matched by their decimal spelling, whose clock is that of the requests
    cut to the second; and a runtime that prints dates in the proleptic
    Gregorian calendar. *)

Fixpoint like_match (pattern s : jsstring) : bool :=
  match pattern with
  | [] => match s with [] => true | _ => false end
  | c :: p =>
      if (c =? 37)%N then
        (fix star (s : jsstring) : bool :=
           like_match p s || match s with [] => false | _ :: s' => star s' end) s
      else
        match s with
        | [] => false
        | d :: s' => ((c =? 95) || (c =? d))%N && like_match p s'
        end
  end.

Fixpoint unlit (s : jsstring) : option string :=
  match s with
  | [] => Some EmptyString
  | c :: r =>
      if (c <? 256)%N then option_map (String (ascii_of_N c)) (unlit r) else None
  end.

Definition decimal_key_eq (i : Z) (s : jsstring) : bool :=
  match unlit s with
  | Some str =>
      match NilZero.int_of_string str with
      | Some d => i =? Z.of_int d
      | None => false
      end
  | None => false
  end.

(** Days since 1970-01-01 to year, month and day. *)
Definition civil_from_days (z : Z) : Z * Z * Z :=
  let z := z + 719468 in
  let era := z / 146097 in
  let doe := z - era * 146097 in
  let yoe := (doe - doe / 1460 + doe / 36524 - doe / 146096) / 365 in
  let doy := doe - (365 * yoe + yoe / 4 - yoe / 100) in
  let mp := (5 * doy + 2) / 153 in
  let d := doy - (153 * mp + 2) / 5 + 1 in
  let m := if mp <? 10 then mp + 3 else mp - 9 in
  (if m <=? 2 then yoe + era * 400 + 1 else yoe + era * 400, m, d).

Definition pad (width : nat) (n : Z) : jsstring :=
  let s := decimal n in
  repeat 48%N (width - length s) ++ s.

Definition gregorian_iso (ms : Z) : jsstring :=
  let '(y, m, d) := civil_from_days (ms / 86400000) in
  let t := ms mod 86400000 in
  pad 4 y ++ lit "-" ++ pad 2 m ++ lit "-" ++ pad 2 d ++ lit "T"
  ++ pad 2 (t / 3600000) ++ lit ":" ++ pad 2 (t / 60000 mod 60) ++ lit ":"
  ++ pad 2 (t / 1000 mod 60) ++ lit "." ++ pad 3 (t mod 1000) ++ lit "Z".

(** ** Sample data *)

Definition empty_table : table := {| rows := []; auto_increment := 1 |}.

(** [{ title: "X", content: "<b>Hi</b> there" }] *)
Definition scenario_body : gmap string value :=
  {[ "title" := VStr (lit "X"); "content" := VStr (lit "<b>Hi</b> there") ]}.

Definition scenario_row : row :=
  {| row_id := 1;
     row_title := lit "X";
     row_category := None;
     row_keywords := Some [];
     row_preview := Some (lit "Hi there...");
     row_content := Some (lit "<b>Hi</b> there");
     row_author := Some Usuario;
     row_created_date := Some 1793574000000;
     row_views := 0;
     row_helpful := 0 |}.

Definition scenario_table : table := {| rows := [scenario_row]; auto_increment := 2 |}.

(** The scenario's row as the API returns it. *)
Definition scenario_topic : topic :=
  {| topic_id := 1;
     topic_title := lit "X";
     topic_category := None;
     topic_keywords := [];
     topic_preview := Some (lit "Hi there...");
     topic_content := Some (lit "<b>Hi</b> there");
     topic_author := Some Usuario;
     topic_created_date := Some 1793574000000;
     topic_views := 0;
     topic_helpful := 0;
     topic_date := lit "2026-11-01" |}.

(** [{ title: "X", content: "<b>Hi</b> there", keywords: ["a", "b"] }] *)
Definition keywords_body : gmap string value :=
  <["keywords" := VArr [VStr (lit "a"); VStr (lit "b")]]> scenario_body.

Definition keywords_table : table :=
  {| rows :=
       [{| row_id := 1;
           row_title := lit "X";
           row_category := None;
           row_keywords := Some (lit "a, b");
           row_preview := Some (lit "Hi there...");
           row_content := Some (lit "<b>Hi</b> there");
           row_author := Some Usuario;
           row_created_date := Some 1793574000000;
           row_views := 0;
           row_helpful := 0 |}];
     auto_increment := 2 |}.

(** [{ incrementView: true, title: "ignored" }], [{ incrementHelpful: 1 }]
    and [{ title: "T" }] *)
Definition view_body : gmap string value :=
  {[ "incrementView" := VBool true; "title" := VStr (lit "ignored") ]}.

Definition helpful_body : gmap string value := {[ "incrementHelpful" := VNum 1 ]}.

Definition title_body : gmap string value := {[ "title" := VStr (lit "T") ]}.

(** ** Further notions

    The routes as requests and runs of requests, the parts of a listing, and
    what the further properties are stated with. *)

(** No ['<'] of the text has a ['>'] after it: the text holds no tag. *)
Fixpoint tag_free (s : jsstring) : Prop :=
  match s with
  | [] => True
  | c :: r => (c = cu_lt -> cu_gt ∉ r) /\ tag_free r
  end.

(** The number of occurrences of a code unit. *)
Fixpoint count_cu (c : N) (s : jsstring) : nat :=
  match s with
  | [] => 0
  | x :: r => (if (x =? c)%N then 1 else 0) + count_cu c r
  end.

(** The conditions of a listing, by filter. *)
Definition listing_conditions (query : gmap string value) : list cond :=
  (if truthy (prop query "search") then [LikeAny] else [])
  ++ (if truthy (prop query "category") && strict_ne (prop query "category") (lit "all")
      then [CategoryEq] else []).

(** The parameters of a listing, by filter: the pattern three times, the
    category, the parsed limit. *)
Definition listing_params (query : gmap string value) : list value :=
  (if truthy (prop query "search") then
     let searchTerm := VStr (lit "%" ++ ToString (prop query "search") ++ lit "%") in
     [searchTerm; searchTerm; searchTerm]
   else [])
  ++ (if truthy (prop query "category") && strict_ne (prop query "category") (lit "all")
      then [prop query "category"] else [])
  ++ (if truthy (prop query "limit") then [parseInt (prop query "limit")] else []).

(** Whether the category restricts the listing (line 83 and line 93). *)
Definition category_filtered (query : gmap string value) : bool :=
  truthy (prop query "category") && strict_ne (prop query "category") (lit "all").

(** The routes of the topics API, with the parts of the request they read. *)
Inductive request :=
| GET_topics (query : gmap string value)
| GET_topic (id : jsstring)
| POST_topics (body : gmap string value)
| PUT_topic (id : jsstring) (updates : gmap string value)
| DELETE_topic (id : jsstring)
| GET_stats_categories.

(** The id in the answer of a create that succeeded. *)
Definition created_id (res : response) : option Z :=
  match body res with
  | Created id => Some id
  | _ => None
  end.

(** Whether the body is [{ error: message }]. *)
Definition is_error (res : response) : bool :=
  match body res with
  | Error _ => true
  | _ => false
  end.

(** Keys are below the counter and no two rows share a key. *)
Definition table_ok (t : table) : Prop :=
  table_wf t /\ NoDup (map row_id (rows t)).

(** The sum of the counts of the groups. *)
Definition total_count (l : list (option jsstring * Z)) : Z :=
  fold_right (fun g acc => snd g + acc) 0 l.

Section FurtherNotions.
Context {E : Engine} {R : Runtime}.

(** [title LIKE ? OR keywords LIKE ? OR content LIKE ?] with the pattern
    [%search%]. *)
Definition search_matches (search : value) (r : row) : bool :=
  let pattern := lit "%" ++ ToString search ++ lit "%" in
  sql_like (row_title r) pattern
  || like_opt (row_keywords r) pattern
  || like_opt (row_content r) pattern.

(** [category = ?] *)
Definition category_matches (c : option jsstring) (r : row) : bool :=
  match c with
  | Some c => eq_opt (row_category r) c
  | None => false
  end.

(** The WHERE clause of a listing, with the category bound to [c]. *)
Definition listing_filter (query : gmap string value) (c : option jsstring) (r : row) : bool :=
  (if truthy (prop query "search") then search_matches (prop query "search") r else true)
  && (if category_filtered query then category_matches c r else true).

(** The rows of a listing before the limit. *)
Definition listing_rows (query : gmap string value) (c : option jsstring) (t : table)
  : list row :=
  sort_desc (fun a b => date_geb (row_created_date a) (row_created_date b))
    (List.filter (listing_filter query c) (rows t)).

(** The category parameter as the engine takes it, when the category
    restricts the listing. *)
Definition bound_category (query : gmap string value) : outcome (option jsstring) :=
  if category_filtered query then sql_text (prop query "category") else Return None.

(** The router: each route runs its handler. *)
Definition handle (pool : option table) (now : Z) (req : request)
  : response * option table :=
  match req with
  | GET_topics query => getTopics pool now query
  | GET_topic id => getTopic pool now id
  | POST_topics body => createTopic pool now body
  | PUT_topic id updates => updateTopic pool now id updates
  | DELETE_topic id => deleteTopic pool now id
  | GET_stats_categories => categoryStats pool now
  end.

(** Requests served one after the other, each at its time.  A handler sends
    one statement to the engine, so that a run is the order in which the
    statements reach it. *)
Fixpoint serve (pool : option table) (reqs : list (Z * request))
  : list response * option table :=
  match reqs with
  | [] => ([], pool)
  | (now, req) :: rest =>
      let '(res, pool') := handle pool now req in
      let '(answers, pool'') := serve pool' rest in
      (res :: answers, pool'')
  end.

(** Whether the counter of every row with the key can take one more. *)
Definition views_fit (id : jsstring) (t : table) : bool :=
  forallb (fun r => negb (sql_key_eq (row_id r) id) || (row_views r + 1 <=? INT_MAX)) (rows t).

(** The same for [helpful]. *)
Definition helpful_fit (id : jsstring) (t : table) : bool :=
  forallb (fun r => negb (sql_key_eq (row_id r) id) || (row_helpful r + 1 <=? INT_MAX)) (rows t).

(** The table with [k] added to a counter of the rows with the key. *)
Definition add_views (k : Z) (id : jsstring) (t : table) : table :=
  {| rows := map (fun r => if sql_key_eq (row_id r) id
                           then with_views (row_views r + k) r else r) (rows t);
     auto_increment := auto_increment t |}.

(** The same for [helpful]. *)
Definition add_helpful (k : Z) (id : jsstring) (t : table) : table :=
  {| rows := map (fun r => if sql_key_eq (row_id r) id
                           then with_helpful (row_helpful r + k) r else r) (rows t);
     auto_increment := auto_increment t |}.

End FurtherNotions.

(** ** Further sample data *)

(** A row with a title, a category and a date, in seconds. *)
Definition sample_row (id : Z) (title : jsstring) (category : option jsstring) (date : Z)
  : row :=
  {| row_id := id;
     row_title := title;
     row_category := category;
     row_keywords := Some (lit "a, b");
     row_preview := Some [];
     row_content := None;
     row_author := Some Usuario;
     row_created_date := Some (1000 * date);
     row_views := 0;
     row_helpful := 0 |}.

(** Three topics, the second the newest. *)
Definition catalogue : table :=
  {| rows := [ sample_row 1 (lit "One") (Some (lit "faq")) 100;
               sample_row 2 (lit "Two") (Some (lit "news")) 300;
               sample_row 3 (lit "Three") (Some (lit "faq")) 200 ];
     auto_increment := 4 |}.

(** The scenario's row with other keywords. *)
Definition stored_with (keywords : jsstring) : table :=
  {| rows :=
       [{| row_id := 1;
           row_title := lit "X";
           row_category := None;
           row_keywords := Some keywords;
           row_preview := Some (lit "Hi there...");
           row_content := Some (lit "<b>Hi</b> there");
           row_author := Some Usuario;
           row_created_date := Some 1793574000000;
           row_views := 0;
           row_helpful := 0 |}];
     auto_increment := 2 |}.

(** The scenario's row after [PUT { title: "T" }]. *)
Definition retitled_row : row :=
  {| row_id := 1;
     row_title := lit "T";
     row_category := None;
     row_keywords := Some [];
     row_preview := Some [];
     row_content := None;
     row_author := Some Usuario;
     row_created_date := Some 1793574000000;
     row_views := 0;
     row_helpful := 0 |}.

Definition retitled_table : table := {| rows := [retitled_row]; auto_increment := 2 |}.


Definition untitled_body : gmap string value := {[ "content" := VStr (lit "x") ]}.

(** [keywords: ["a,b", "c"]] and [keywords: "x , y"] *)
Definition comma_body : gmap string value :=
  <["keywords" := VArr [VStr (lit "a,b"); VStr (lit "c")]]> scenario_body.

Definition text_keywords_body : gmap string value :=
  <["keywords" := VStr (lit "x , y")]> scenario_body.

(** [?search=&category=faq] *)
Definition empty_search_query : gmap string value :=
  {[ "search" := VStr []; "category" := VStr (lit "faq") ]}.

(** * Properties *)

(** ** The runtime on examples *)

Example replace_tags_scenario :
  replace_tags (lit "<b>Hi</b> there") = lit "Hi there".
Proof. reflexivity. Qed.

Example replace_tags_unclosed :
  replace_tags (lit "a < b <i>c</i> d <") = lit "a c d <".
Proof. reflexivity. Qed.

Example split_trailing : split cu_comma (lit "a,,b,") = [lit "a"; []; lit "b"; []].
Proof. reflexivity. Qed.

Example parseInt_examples :
  parseInt (VStr (lit " 12px")) = VNum 12 /\ parseInt (VStr (lit "0x1F")) = VNum 31
  /\ parseInt (VStr (lit "-7")) = VNum (-7) /\ parseInt (VStr (lit "abc")) = VNaN
  /\ parseInt (VArr [VStr (lit "5"); VStr (lit "6")]) = VNum 5.
Proof. repeat split; reflexivity. Qed.

(** ** The reference configuration is an engine and a runtime *)

Lemma unlit_lit (s : string) : unlit (lit s) = Some s.
Proof.
  induction s as [|a s IH]; simpl; [reflexivity|].
  pose proof (N_ascii_bounded a) as Hb.
  destruct (N.ltb_spec (N_of_ascii a) 256) as [_|Hge]; [|lia].
  rewrite IH. simpl. now rewrite ascii_N_embedding.
Qed.

Lemma to_int_proper (z : Z) : Z.to_int z <> Decimal.Pos Decimal.Nil /\ Z.to_int z <> Decimal.Neg Decimal.Nil.
Proof.
  destruct z as [|p|p]; simpl; split; try discriminate.
  - intros [= H]. now apply (Unsigned.to_uint_nonnil p).
  - intros [= H]. now apply (Unsigned.to_uint_nonnil p).
Qed.

Lemma decimal_key_eq_decimal (i j : Z) : decimal_key_eq i (decimal j) = (i =? j).
Proof.
  unfold decimal_key_eq, decimal. rewrite unlit_lit.
  destruct (to_int_proper j) as [Hp Hn].
  rewrite (NilZero.isi _ Hp Hn). now rewrite DecimalZ.of_to.
Qed.

Lemma whole_seconds (now : Z) : (1000 * (now / 1000)) mod 1000 = 0.
Proof. rewrite Z.mul_comm. now apply Z.mod_mul. Qed.

#[export] Instance binary_engine : Engine := {|
  sql_like s pattern := like_match pattern s;
  sql_text_eq a b := bool_decide (a = b);
  sql_key_eq := decimal_key_eq;
  sql_fits ty s :=
    match ty with
    | VARCHAR n => (length s <=? n)%nat
    | TEXT => (N.of_nat (length s) <=? 65535)%N
    end;
  current_timestamp now := 1000 * (now / 1000);
  sql_key_eq_decimal := decimal_key_eq_decimal;
  current_timestamp_seconds := whole_seconds
|}.

#[export] Instance gregorian_runtime : Runtime := {| toISOString := gregorian_iso |}.

Example gregorian_iso_example :
  gregorian_iso 1793574000123 = lit "2026-11-01T23:00:00.123Z".
Proof. reflexivity. Qed.

(** ** Removing markup *)

Lemma match_tag_rest_Some (s : jsstring) (n : nat) :
  match_tag_rest s = Some n ->
  exists inner rest, s = inner ++ cu_gt :: rest /\ (cu_gt ∉ inner) /\ n = S (length inner).
Proof.
  revert n. induction s as [|c r IH]; intros n; simpl; [discriminate|].
  destruct (N.eqb_spec c cu_gt) as [->|Hc].
  - intros [= <-]. exists [], r. repeat split. apply not_elem_of_nil.
  - destruct (match_tag_rest r) as [m|]; [|discriminate].
    intros [= <-]. destruct (IH m eq_refl) as (inner & rest & -> & Hin & ->).
    exists (c :: inner), rest. repeat split.
    rewrite elem_of_cons. intros [Heq|Hel]; [congruence|contradiction].
Qed.

Lemma match_tag_rest_None (s : jsstring) : match_tag_rest s = None -> cu_gt ∉ s.
Proof.
  induction s as [|c r IH]; simpl; intros H.
  - apply not_elem_of_nil.
  - destruct (N.eqb_spec c cu_gt) as [->|Hc]; [discriminate|].
    destruct (match_tag_rest r); [discriminate|].
    rewrite elem_of_cons. intros [Heq|Hel]; [congruence|]. now apply IH.
Qed.

Lemma replace_tags_from_skip (l1 l2 : jsstring) :
  replace_tags_from (length l1) (l1 ++ l2) = replace_tags_from 0 l2.
Proof. induction l1 as [|c l1 IH]; simpl; [reflexivity|exact IH]. Qed.

Lemma replace_tags_strips_bounded (n : nat) (s : jsstring) :
  (length s <= n)%nat -> strips s (replace_tags s).
Proof.
  revert s. induction n as [|n IH]; intros s Hlen.
  - destruct s; [constructor|simpl in Hlen; lia].
  - destruct s as [|c r]; [constructor|].
    unfold replace_tags. cbn [replace_tags_from].
    destruct (match_tag (c :: r)) as [m|] eqn:Hm.
    + simpl in Hm. destruct (N.eqb_spec c cu_lt) as [->|Hc]; [|discriminate].
      destruct (match_tag_rest r) as [k|] eqn:Hk; [|discriminate].
      injection Hm as <-.
      destruct (match_tag_rest_Some _ _ Hk) as (inner & rest & -> & Hin & ->).
      cbn [Nat.pred].
      replace (inner ++ cu_gt :: rest) with ((inner ++ [cu_gt]) ++ rest)
        by now rewrite <- app_assoc.
      replace (S (length inner)) with (length (inner ++ [cu_gt]))
        by (rewrite length_app; simpl; lia).
      rewrite replace_tags_from_skip. rewrite <- app_assoc. simpl.
      apply strips_tag; [exact Hin|]. apply IH.
      simpl in Hlen. rewrite length_app in Hlen. simpl in Hlen. lia.
    + apply strips_keep.
      * simpl in Hm. destruct (N.eqb_spec c cu_lt) as [->|Hc]; [|now left].
        right. apply match_tag_rest_None.
        destruct (match_tag_rest r); [discriminate|reflexivity].
      * apply IH. simpl in Hlen. lia.
Qed.

(** The replacement of the source removes the tags in that sense. *)
Lemma replace_tags_strips (s : jsstring) : strips s (replace_tags s).
Proof. now apply (replace_tags_strips_bounded (length s)). Qed.

(** There is one way to strip a string. *)
Lemma strips_functional (s out1 out2 : jsstring) :
  strips s out1 -> strips s out2 -> out1 = out2.
Proof.
  intros H1. revert out2.
  induction H1 as [|inner rest out Hin H1 IH|c rest out Hc H1 IH]; intros out2 H2.
  - now inversion H2.
  - inversion H2 as [|inner' rest' out' Hin' H2' Heq|c' rest' out' Hc' H2' Heq]; subst.
    + assert (inner = inner' /\ rest = rest') as [-> ->].
      { clear -Hin Hin' Heq. revert inner' Hin' Heq.
        induction inner as [|a inner IHi]; intros [|b inner'] Hin' Heq; simpl in Heq.
        - now injection Heq as ->.
        - injection Heq as Hb _. exfalso. apply Hin'. apply elem_of_cons; left; congruence.
        - injection Heq as Hb _. exfalso. apply Hin. apply elem_of_cons; left; congruence.
        - injection Heq as -> Heq.
          rewrite not_elem_of_cons in Hin, Hin'.
          destruct (IHi (proj2 Hin) inner' (proj2 Hin') Heq) as [-> ->]. now split. }
      now apply IH.
    + exfalso. destruct Hc' as [Hc'|Hc']; [congruence|].
      apply Hc'. apply elem_of_app. right. apply elem_of_cons; now left.
  - inversion H2 as [|inner' rest' out' Hin' H2' Heq|c' rest' out' Hc' H2' Heq]; subst.
    + exfalso. destruct Hc as [Hc|Hc]; [congruence|].
      apply Hc. apply elem_of_app. right. apply elem_of_cons; now left.
    + f_equal. now apply IH.
Qed.

Lemma preview_of_is_preview (content : value) :
  is_preview_of content (Some (preview_of content)).
Proof.
  destruct content as [| |b|n| |[|c s]|l|o]; simpl; try reflexivity.
  exists (replace_tags (c :: s)). split; [apply replace_tags_strips|reflexivity].
Qed.

Lemma preview_of_prefix (content : value) :
  exists p stripped,
    strips (text_of content) stripped
    /\ p `prefix_of` stripped
    /\ (length p <= 200)%nat
    /\ preview_of content = p ++ ellipsis_of content.
Proof.
  destruct content as [| |b|n| |[|c s]|l|o];
    try (exists [], []; split; [constructor|]; split; [apply prefix_nil|];
         split; [simpl; lia|reflexivity]).
  exists (firstn 200 (replace_tags (c :: s))), (replace_tags (c :: s)).
  split; [apply replace_tags_strips|]. split; [apply prefix_take|].
  split; [apply firstn_le_length|reflexivity].
Qed.

(** ** Joining and splitting keywords *)

Lemma split_no_sep (sep : N) (s : jsstring) : sep ∉ s -> split sep s = [s].
Proof.
  induction s as [|c r IH]; simpl; intros H; [reflexivity|].
  rewrite not_elem_of_cons in H. destruct H as [Hc Hr].
  destruct (N.eqb_spec c sep) as [->|_]; [congruence|].
  now rewrite (IH Hr).
Qed.

Lemma split_app_sep (sep : N) (k s : jsstring) :
  sep ∉ k -> split sep (k ++ sep :: s) = k :: split sep s.
Proof.
  induction k as [|c r IH]; simpl; intros H.
  - now rewrite N.eqb_refl.
  - rewrite not_elem_of_cons in H. destruct H as [Hc Hr].
    destruct (N.eqb_spec c sep) as [->|_]; [congruence|].
    now rewrite (IH Hr).
Qed.

Lemma split_nonempty (sep : N) (s : jsstring) : split sep s <> [].
Proof.
  induction s as [|c r IH]; simpl; [discriminate|].
  destruct (c =? sep)%N; [discriminate|].
  destruct (split sep r); [contradiction|discriminate].
Qed.

Lemma join_split (sep : N) (s : jsstring) : join_strings [sep] (split sep s) = s.
Proof.
  induction s as [|c r IH]; simpl; [reflexivity|].
  pose proof (split_nonempty sep r) as Hne.
  destruct (N.eqb_spec c sep) as [->|_].
  - destruct (split sep r) as [|h t]; [contradiction|].
    change (join_strings [sep] ([] :: h :: t)) with (sep :: join_strings [sep] (h :: t)).
    now rewrite IH.
  - destruct (split sep r) as [|h [|h' t]]; [contradiction| |].
    + simpl in *. now rewrite IH.
    + change (join_strings [sep] ((c :: h) :: h' :: t))
        with (c :: join_strings [sep] (h :: h' :: t)).
      now rewrite IH.
Qed.

Lemma split_pieces_clean (sep : N) (s : jsstring) :
  Forall (fun p => sep ∉ p) (split sep s).
Proof.
  induction s as [|c r IH]; simpl.
  - repeat constructor. apply not_elem_of_nil.
  - pose proof (split_nonempty sep r) as Hne.
    destruct (N.eqb_spec c sep) as [->|Hc].
    + constructor; [apply not_elem_of_nil|exact IH].
    + destruct (split sep r) as [|h t]; [contradiction|].
      inversion IH as [|? ? Hh Ht]; subst. constructor; [|exact Ht].
      rewrite not_elem_of_cons. split; [congruence|exact Hh].
Qed.

Lemma split_hd_first (sep : N) (s : jsstring) :
  (sep ∉ hd [] (split sep s))
  /\ (s = hd [] (split sep s) \/ exists rest, s = hd [] (split sep s) ++ sep :: rest).
Proof.
  induction s as [|c r [IHn IHs]]; simpl.
  - split; [apply not_elem_of_nil|now left].
  - pose proof (split_nonempty sep r) as Hne.
    destruct (N.eqb_spec c sep) as [->|Hc]; simpl.
    + split; [apply not_elem_of_nil|]. right. now exists r.
    + destruct (split sep r) as [|h t]; [contradiction|]. simpl in *.
      split; [rewrite not_elem_of_cons; split; [congruence|exact IHn]|].
      destruct IHs as [->|(rest & ->)]; [now left|right; now exists rest].
Qed.

Lemma trim_ws_cons (c : N) (s : jsstring) : is_ws c = true -> trim (c :: s) = trim s.
Proof. intros H. unfold trim. simpl. now rewrite H. Qed.

Lemma map_trim_split_ws (sep c : N) (s : jsstring) :
  is_ws c = true -> c <> sep ->
  map trim (split sep (c :: s)) = map trim (split sep s).
Proof.
  intros Hws Hne. simpl.
  destruct (N.eqb_spec c sep) as [->|_]; [congruence|].
  pose proof (split_nonempty sep s) as Hs.
  destruct (split sep s) as [|h t]; [contradiction|].
  simpl. now rewrite trim_ws_cons.
Qed.

Lemma split_join_keywords (ks : list jsstring) :
  ks <> [] -> Forall plain_keyword ks ->
  map trim (split cu_comma (join_strings (lit ", ") ks)) = ks.
Proof.
  induction ks as [|k ks IH]; intros Hne Hall; [contradiction|].
  inversion Hall as [|? ? [Hcomma Htrim] Hrest]; subst.
  destruct ks as [|k' ks].
  - simpl. rewrite (split_no_sep _ _ Hcomma). simpl. now rewrite Htrim.
  - change (join_strings (lit ", ") (k :: k' :: ks))
      with (k ++ cu_comma :: 32%N :: join_strings (lit ", ") (k' :: ks)).
    rewrite (split_app_sep _ _ _ Hcomma).
    cbn [map]. rewrite Htrim. f_equal.
    rewrite map_trim_split_ws; [|reflexivity|discriminate].
    apply IH; [discriminate|exact Hrest].
Qed.

Lemma join_strings_empty (sep : jsstring) (ks : list jsstring) :
  join_strings sep ks = [] -> ks = [] \/ ks = [[]] \/ sep = [].
Proof.
  destruct ks as [|k [|k' ks]]; simpl; intros H; [now left| |].
  - right; left. now rewrite H.
  - right; right. apply app_eq_nil in H. destruct H as [_ H].
    now apply app_eq_nil in H.
Qed.

Lemma join_of_strings (ks : list jsstring) (sep : jsstring) :
  join (map VStr ks) sep = join_strings sep ks.
Proof.
  unfold join. rewrite map_map. f_equal.
  induction ks as [|k ks IH]; simpl; [reflexivity|f_equal; exact IH].
Qed.

Lemma plain_keyword_a : plain_keyword (lit "a").
Proof.
  split; [|reflexivity].
  intros H. apply list_elem_of_In in H. vm_compute in H. intuition discriminate.
Qed.

Lemma plain_keyword_b : plain_keyword (lit "b").
Proof.
  split; [|reflexivity].
  intros H. apply list_elem_of_In in H. vm_compute in H. intuition discriminate.
Qed.

(** ** What a statement does *)

Lemma parse_select_by_id :
  parse_sql (lit "SELECT * FROM topics WHERE id = ?") = Some SelectById.
Proof. vm_compute. reflexivity. Qed.

Lemma parse_insert :
  parse_sql (lit "INSERT INTO topics (title, category, keywords, preview, content, author) VALUES (?, ?, ?, ?, ?, ?)")
  = Some InsertTopic.
Proof. vm_compute. reflexivity. Qed.

Lemma parse_increment_views :
  parse_sql (lit "UPDATE topics SET views = views + 1 WHERE id = ?") = Some IncrementViews.
Proof. vm_compute. reflexivity. Qed.

Lemma parse_increment_helpful :
  parse_sql (lit "UPDATE topics SET helpful = helpful + 1 WHERE id = ?") = Some IncrementHelpful.
Proof. vm_compute. reflexivity. Qed.

Lemma parse_update :
  parse_sql (lit "UPDATE topics SET title = ?, category = ?, keywords = ?, preview = ?, content = ?, author = ? WHERE id = ?")
  = Some UpdateTopic.
Proof. vm_compute. reflexivity. Qed.

Lemma parse_delete :
  parse_sql (lit "DELETE FROM topics WHERE id = ?") = Some DeleteTopic.
Proof. vm_compute. reflexivity. Qed.

Lemma parse_stats :
  parse_sql (lit "SELECT category, COUNT(*) as count FROM topics GROUP BY category ORDER BY count DESC")
  = Some CategoryStats.
Proof. vm_compute. reflexivity. Qed.

(** Every text the engine knows is read back as its statement. *)
Lemma parse_render (st : statement) : In st statements -> parse_sql (render st) = Some st.
Proof.
  intros H. repeat (destruct H as [<-|H]; [vm_compute; reflexivity|]). destruct H.
Qed.

#[global] Opaque parse_sql.

Lemma bind_Return_inv {A B} (m : outcome A) (k : A -> outcome B) (b : B) :
  bind m k = Return b -> exists a, m = Return a /\ k a = Return b.
Proof. destruct m as [a|e]; simpl; [eauto|discriminate]. Qed.

(** Splits a successful sequence of steps into its steps. *)
Ltac bind_inv H :=
  repeat
    (let x := fresh "x" in
     let Hx := fresh "Hx" in
     apply bind_Return_inv in H as (x & Hx & H)).

Lemma substring_0 (n : nat) (s : jsstring) : substring 0 n s = firstn n s.
Proof. unfold substring. simpl. now rewrite Nat.sub_0_r. Qed.


Lemma filter_all {A} (sel : A -> bool) (l : list A) :
  (forall x, In x l -> sel x = true) -> List.filter sel l = l.
Proof.
  induction l as [|a l IH]; simpl; intros H; [reflexivity|].
  rewrite (H a (or_introl eq_refl)). f_equal. apply IH. intros x Hx. apply H. now right.
Qed.

Lemma Forall2_In_r {A B} (P : A -> B -> Prop) (l : list A) (k : list B) (y : B) :
  Forall2 P l k -> In y k -> exists x, In x l /\ P x y.
Proof.
  induction 1 as [|x y' l k Hxy _ IH]; simpl; [contradiction|].
  intros [<-|Hy]; [exists x; auto|].
  destruct (IH Hy) as (x' & Hx' & Hp). exists x'. auto.
Qed.


Section StorageFacts.
Context {E : Engine}.

Lemma check_fit_Return ty column v v' : check_fit ty column v = Return v' -> v' = v.
Proof.
  destruct v as [s|]; simpl; [|now intros [= <-]].
  destruct (sql_fits ty s); [now intros [= <-]|discriminate].
Qed.

Lemma check_not_null_Return column v s : check_not_null column v = Return s -> v = Some s.
Proof. destruct v; simpl; [now intros [= <-]|discriminate]. Qed.

Lemma fits_column_check ty column v :
  fits_column ty v = true ->
  exists x, sql_text v = Return x /\ check_fit ty column x = Return x.
Proof.
  unfold fits_column, check_fit. destruct (sql_text v) as [[s|]|e]; try discriminate.
  - intros H. exists (Some s). now rewrite H.
  - intros _. now exists None.
Qed.

Lemma update_where_Forall2 sel f rs rs' :
  update_where sel f rs = Return rs' ->
  Forall2 (fun r r' => if sel r then f r = Return r' else r' = r) rs rs'.
Proof.
  revert rs'. induction rs as [|r rs IH]; simpl; intros rs' H.
  - injection H as <-. constructor.
  - bind_inv H. injection H as <-. constructor; [|now apply IH].
    destruct (sel r); [assumption|now injection Hx as <-].
Qed.


(** A successful INSERT appends one row, numbered by the counter, which
    holds the six parameters as texts, the server's timestamp, and zero
    counters. *)
Lemma exec_insert_Return a b c d e f now t res t' :
  exec InsertTopic [a; b; c; d; e; f] now t = Return (res, t') ->
  exists r,
    res = Header (auto_increment t)
    /\ t' = {| rows := rows t ++ [r]; auto_increment := auto_increment t + 1 |}
    /\ row_id r = auto_increment t
    /\ sql_text a = Return (Some (row_title r))
    /\ sql_text b = Return (row_category r)
    /\ sql_text c = Return (row_keywords r)
    /\ sql_text d = Return (row_preview r)
    /\ sql_text e = Return (row_content r)
    /\ sql_text f = Return (row_author r)
    /\ row_created_date r = Some (current_timestamp now)
    /\ row_views r = 0 /\ row_helpful r = 0.
Proof.
  intros H. unfold exec in H. bind_inv H.
  destruct (INT_MAX <? auto_increment t); [discriminate|].
  injection H as <- <-.
  repeat match goal with
         | H : check_fit _ _ _ = Return _ |- _ => apply check_fit_Return in H; subst
         | H : check_not_null _ _ = Return _ |- _ => apply check_not_null_Return in H; subst
         end.
  eexists. repeat split; simpl; try assumption; reflexivity.
Qed.

Lemma exec_update_Return a b c d e f id now t res t' :
  exec UpdateTopic [a; b; c; d; e; f; VStr id] now t = Return (res, t') ->
  auto_increment t' = auto_increment t
  /\ Forall2 (fun r r' =>
                if sql_key_eq (row_id r) id then replaced a b c d e f r r' else r' = r)
       (rows t) (rows t').
Proof.
  intros H. unfold exec in H. bind_inv H.
  injection H as <- <-. simpl. split; [reflexivity|].
  simpl in Hx5. injection Hx5 as <-.
  apply update_where_Forall2 in Hx6.
  eapply Forall2_impl; [exact Hx6|].
  intros r r' Hr. cbv beta in Hr.
  destruct (sql_key_eq (row_id r) id); [|exact Hr].
  bind_inv Hr. injection Hr as <-.
  repeat match goal with
         | H : check_fit _ _ _ = Return _ |- _ => apply check_fit_Return in H; subst
         | H : check_not_null _ _ = Return _ |- _ => apply check_not_null_Return in H; subst
         end.
  repeat split; simpl; try assumption; reflexivity.
Qed.

Lemma bump_Return column n m : bump column n = Return m -> m = n + 1.
Proof. unfold bump. destruct (n + 1 <=? INT_MAX); [now intros [= <-]|discriminate]. Qed.

(** A successful increment adds one to the counter of the rows with the
    key and changes nothing else. *)
Lemma exec_increment_views_Return id now t res t' :
  exec IncrementViews [VStr id] now t = Return (res, t') ->
  auto_increment t' = auto_increment t
  /\ Forall2 (fun r r' =>
                r' = if sql_key_eq (row_id r) id then with_views (row_views r + 1) r else r)
       (rows t) (rows t').
Proof.
  intros H. unfold exec, sql_key in H. cbn [bind] in H.
  apply bind_Return_inv in H as (rs & Hrs & H). injection H as <- <-.
  split; [reflexivity|]. cbn [rows].
  apply update_where_Forall2 in Hrs.
  eapply Forall2_impl; [exact Hrs|].
  intros r r' Hr. cbv beta in Hr.
  destruct (sql_key_eq (row_id r) id); [|exact Hr].
  apply bind_Return_inv in Hr as (n & Hn & Hr). injection Hr as <-.
  now apply bump_Return in Hn as ->.
Qed.

Lemma exec_increment_helpful_Return id now t res t' :
  exec IncrementHelpful [VStr id] now t = Return (res, t') ->
  auto_increment t' = auto_increment t
  /\ Forall2 (fun r r' =>
                r' = if sql_key_eq (row_id r) id then with_helpful (row_helpful r + 1) r else r)
       (rows t) (rows t').
Proof.
  intros H. unfold exec, sql_key in H. cbn [bind] in H.
  apply bind_Return_inv in H as (rs & Hrs & H). injection H as <- <-.
  split; [reflexivity|]. cbn [rows].
  apply update_where_Forall2 in Hrs.
  eapply Forall2_impl; [exact Hrs|].
  intros r r' Hr. cbv beta in Hr.
  destruct (sql_key_eq (row_id r) id); [|exact Hr].
  apply bind_Return_inv in Hr as (n & Hn & Hr). injection Hr as <-.
  now apply bump_Return in Hn as ->.
Qed.

End StorageFacts.

(** ** What a handler's success implies *)

Section HandlerFacts.
Context {E : Engine} {R : Runtime}.

Lemma try_catch_200 t (m : outcome (response * table)) res t' :
  status res = 200 -> try_catch t m = (res, Some t') -> m = Return (res, t').
Proof.
  destruct m as [[res0 t0]|e]; simpl; intros Hs H.
  - now injection H as <- <-.
  - injection H as <- _. discriminate.
Qed.

Lemma try_catch_cases t (m : outcome (response * table)) res t' :
  try_catch t m = (res, Some t') ->
  m = Return (res, t') \/ (t' = t /\ status res = 500).
Proof.
  destruct m as [[res0 t0]|e]; simpl; intros H.
  - left. now injection H as <- <-.
  - right. injection H as <- <-. now split.
Qed.

Lemma preview_Return (content : value) (p : value) :
  (if truthy content then
     let! stripped := call_replace_tags content in
     Return (VStr (substring 0 200 stripped ++ lit "..."))
   else Return (VStr [])) = Return p ->
  p = VStr (preview_of content).
Proof.
  destruct content as [| |[|]|n| |[|c s]|l|o]; cbn [truthy call_replace_tags bind preview_of];
    try (intros [= <-]; reflexivity); try discriminate.
  destruct (negb (n =? 0)); [discriminate|now intros [= <-]].
Qed.

Lemma createTopic_params_Return body ps :
  createTopic_params body = Return ps ->
  ps = [prop body "title"; prop body "category"; keywords_string (prop body "keywords");
        VStr (preview_of (prop body "content")); prop body "content";
        js_or (prop body "author") (VStr Usuario)].
Proof.
  unfold createTopic_params. intros H.
  apply bind_Return_inv in H as (p & Hp & H).
  apply preview_Return in Hp as ->. now injection H as <-.
Qed.

Lemma updateTopic_params_Return id updates ps :
  updateTopic_params id updates = Return ps ->
  ps = [prop updates "title"; prop updates "category";
        keywords_string (prop updates "keywords");
        VStr (preview_of (prop updates "content")); prop updates "content";
        js_or (prop updates "author") (VStr Usuario); VStr id].
Proof.
  unfold updateTopic_params. intros H.
  apply bind_Return_inv in H as (p & Hp & H).
  apply preview_Return in Hp as ->. now injection H as <-.
Qed.

(** A create that answers with an id has appended the row of that id,
    holding the submitted fields. *)
Lemma createTopic_Created t now body id t' :
  createTopic (Some t) now body = (json (Created id), Some t') ->
  exists r,
    id = auto_increment t
    /\ t' = {| rows := rows t ++ [r]; auto_increment := auto_increment t + 1 |}
    /\ row_id r = id
    /\ sql_text (prop body "title") = Return (Some (row_title r))
    /\ sql_text (prop body "category") = Return (row_category r)
    /\ sql_text (keywords_string (prop body "keywords")) = Return (row_keywords r)
    /\ row_preview r = Some (preview_of (prop body "content"))
    /\ sql_text (prop body "content") = Return (row_content r)
    /\ sql_text (js_or (prop body "author") (VStr Usuario)) = Return (row_author r)
    /\ row_created_date r = Some (current_timestamp now)
    /\ row_views r = 0 /\ row_helpful r = 0.
Proof.
  unfold createTopic. intros H. apply try_catch_200 in H; [|reflexivity].
  apply bind_Return_inv in H as (ps & Hps & H).
  apply createTopic_params_Return in Hps as ->.
  apply bind_Return_inv in H as ([res t0] & Hq & H).
  injection H as Hid <-.
  unfold pool_query in Hq. rewrite parse_insert in Hq.
  apply exec_insert_Return in Hq as (r & -> & -> & Hr & Ht & Hc & Hk & Hp & Hco & Ha & Hd & Hv & Hh).
  simpl in Hid. subst id.
  exists r. repeat split; try assumption.
  unfold sql_text in Hp. now injection Hp as <-.
Qed.

(** A create succeeds, and answers with the value of the counter, when the
    title is a text, the content is a text or absent, every value fits its
    column and the counter is in range. *)
Lemma createTopic_succeeds t now body title :
  prop body "title" = VStr title ->
  optional_text (prop body "content") = true ->
  fits_column (VARCHAR 255) (prop body "title") = true ->
  fits_column (VARCHAR 100) (prop body "category") = true ->
  fits_column TEXT (keywords_string (prop body "keywords")) = true ->
  fits_column TEXT (VStr (preview_of (prop body "content"))) = true ->
  fits_column TEXT (prop body "content") = true ->
  fits_column (VARCHAR 100) (js_or (prop body "author") (VStr Usuario)) = true ->
  auto_increment t <= INT_MAX ->
  exists t', createTopic (Some t) now body = (json (Created (auto_increment t)), Some t').
Proof.
  intros Htitle Hco Ft Fc Fk Fp Fco Fa Hai.
  unfold createTopic.
  assert (createTopic_params body
          = Return [prop body "title"; prop body "category";
                    keywords_string (prop body "keywords");
                    VStr (preview_of (prop body "content")); prop body "content";
                    js_or (prop body "author") (VStr Usuario)]) as ->.
  { unfold createTopic_params.
    destruct (prop body "content") as [| |b|n| |[|c s]|l|o]; try discriminate; reflexivity. }
  cbn [bind]. unfold pool_query. rewrite parse_insert. unfold exec.
  destruct (fits_column_check _ "title" _ Ft) as (xt & Et & Ct).
  destruct (fits_column_check _ "category" _ Fc) as (xc & Ec & Cc).
  destruct (fits_column_check _ "keywords" _ Fk) as (xk & Ek & Ck).
  destruct (fits_column_check _ "preview" _ Fp) as (xp & Ep & Cp).
  destruct (fits_column_check _ "content" _ Fco) as (xco & Eco & Cco).
  destruct (fits_column_check _ "author" _ Fa) as (xa & Ea & Ca).
  rewrite Et, Ec, Ek, Ep, Eco, Ea. cbn [bind].
  rewrite Htitle in Et. unfold sql_text in Et. injection Et as <-.
  cbn [check_not_null bind]. rewrite Ct. cbn [bind].
  rewrite Cc. cbn [bind]. rewrite Ck. cbn [bind]. rewrite Cp. cbn [bind].
  rewrite Cco. cbn [bind]. rewrite Ca. cbn [bind].
  destruct (Z.ltb_spec INT_MAX (auto_increment t)) as [Hlt|_]; [lia|].
  cbn [try_catch bind insertId]. eexists. reflexivity.
Qed.

(** A full replacement that answers with success has rewritten the rows
    with the key from the body alone. *)
Lemma updateTopic_replaced t now id updates t' :
  truthy (prop updates "incrementView") = false ->
  truthy (prop updates "incrementHelpful") = false ->
  updateTopic (Some t) now id updates = (json Success, Some t') ->
  auto_increment t' = auto_increment t
  /\ Forall2 (fun r r' =>
                if sql_key_eq (row_id r) id then
                  replaced (prop updates "title") (prop updates "category")
                    (keywords_string (prop updates "keywords"))
                    (VStr (preview_of (prop updates "content")))
                    (prop updates "content")
                    (js_or (prop updates "author") (VStr Usuario)) r r'
                else r' = r)
       (rows t) (rows t').
Proof.
  unfold updateTopic. intros Hv Hh H. rewrite Hv, Hh in H.
  apply try_catch_200 in H; [|reflexivity].
  apply bind_Return_inv in H as (t0 & H0 & H). injection H as <-.
  apply bind_Return_inv in H0 as (ps & Hps & H0).
  apply updateTopic_params_Return in Hps as ->.
  apply bind_Return_inv in H0 as ([res t1] & Hq & H0). injection H0 as <-.
  unfold pool_query in Hq. rewrite parse_update in Hq.
  now apply exec_update_Return in Hq.
Qed.

(** After a successful full replacement, a row with the key holds the
    fields of the body. *)
Lemma updateTopic_row_replaced t now id updates t' r' :
  truthy (prop updates "incrementView") = false ->
  truthy (prop updates "incrementHelpful") = false ->
  updateTopic (Some t) now id updates = (json Success, Some t') ->
  In r' (rows t') -> sql_key_eq (row_id r') id = true ->
  exists r, In r (rows t)
    /\ replaced (prop updates "title") (prop updates "category")
         (keywords_string (prop updates "keywords"))
         (VStr (preview_of (prop updates "content")))
         (prop updates "content")
         (js_or (prop updates "author") (VStr Usuario)) r r'.
Proof.
  intros Hv Hh H Hin Hkey.
  destruct (updateTopic_replaced _ _ _ _ _ Hv Hh H) as [_ Hall].
  destruct (Forall2_In_r _ _ _ _ Hall Hin) as (r & Hr & Hrr').
  exists r. split; [exact Hr|].
  destruct (sql_key_eq (row_id r) id) eqn:Hk; [exact Hrr'|].
  subst r'. congruence.
Qed.

(** An update either fails and changes nothing, or answers with success
    and has the effect of its mode on every row. *)
Lemma updateTopic_cases t now id updates res t' :
  updateTopic (Some t) now id updates = (res, Some t') ->
  (t' = t /\ status res = 500)
  \/ (res = json Success
      /\ auto_increment t' = auto_increment t
      /\ Forall2 (update_effect id updates) (rows t) (rows t')).
Proof.
  unfold updateTopic, update_effect. intros H.
  apply try_catch_cases in H as [H|H]; [right|now left].
  apply bind_Return_inv in H as (t0 & H0 & H). injection H as <- <-.
  split; [reflexivity|].
  destruct (truthy (prop updates "incrementView")).
  { apply bind_Return_inv in H0 as ([res1 t1] & Hq & H0). injection H0 as <-.
    unfold pool_query in Hq. rewrite parse_increment_views in Hq.
    now apply exec_increment_views_Return in Hq. }
  destruct (truthy (prop updates "incrementHelpful")).
  { apply bind_Return_inv in H0 as ([res1 t1] & Hq & H0). injection H0 as <-.
    unfold pool_query in Hq. rewrite parse_increment_helpful in Hq.
    now apply exec_increment_helpful_Return in Hq. }
  apply bind_Return_inv in H0 as (ps & Hps & H0).
  apply updateTopic_params_Return in Hps as ->.
  apply bind_Return_inv in H0 as ([res1 t1] & Hq & H0). injection H0 as <-.
  unfold pool_query in Hq. rewrite parse_update in Hq.
  now apply exec_update_Return in Hq.
Qed.

Lemma update_effect_same_id id updates r r' :
  update_effect id updates r r' -> row_id r' = row_id r.
Proof.
  unfold update_effect, replaced.
  destruct (truthy (prop updates "incrementView")).
  { intros ->. now destruct (sql_key_eq (row_id r) id). }
  destruct (truthy (prop updates "incrementHelpful")).
  { intros ->. now destruct (sql_key_eq (row_id r) id). }
  destruct (sql_key_eq (row_id r) id); [now intros (H & _)|now intros ->].
Qed.







(** The category filter is read only through its truth value and its
    difference from ["all"]. *)
Lemma getTopics_query_category (q1 q2 : gmap string value) :
  prop q1 "search" = prop q2 "search" ->
  prop q1 "limit" = prop q2 "limit" ->
  truthy (prop q1 "category") && strict_ne (prop q1 "category") (lit "all") = false ->
  truthy (prop q2 "category") && strict_ne (prop q2 "category") (lit "all") = false ->
  getTopics_query q1 = getTopics_query q2.
Proof.
  intros Hs Hl H1 H2. unfold getTopics_query. now rewrite Hs, Hl, H1, H2.
Qed.

Lemma getTopic_rows t now id :
  getTopic (Some t) now id
  = match matching id t with
    | [] => (status_json 404 (Error (lit "Topic not found")), Some t)
    | r :: _ => (json (OneTopic (to_topic now r)), Some t)
    end.
Proof.
  unfold getTopic, pool_query. rewrite parse_select_by_id.
  unfold exec, sql_key. cbn [bind result_rows]. fold (matching id t).
  now destruct (matching id t).
Qed.

Lemma to_topic_is_topic now r : is_topic_of now r (to_topic now r).
Proof.
  unfold is_topic_of. cbn [to_topic topic_id topic_title topic_category topic_keywords
    topic_preview topic_content topic_author topic_created_date topic_views topic_helpful
    topic_date].
  repeat (split; [reflexivity|]). split; [|repeat (split; [reflexivity|])].
  - destruct (row_keywords r) as [[|c k]|]; cbn [keywords_of]; try reflexivity.
    exists (split cu_comma (c :: k)).
    split; [apply join_split|]. split; [apply split_pieces_clean|reflexivity].
  - destruct (row_created_date r) as [d|]; cbn [default]; apply split_hd_first.
Qed.

(** *** The key invariant

    The handlers keep every key below the counter, so that the key handed
    out by a create is fresh. *)

Lemma empty_table_wf : table_wf empty_table.
Proof. constructor. Qed.

Lemma createTopic_preserves_wf t now body res t' :
  table_wf t -> createTopic (Some t) now body = (res, Some t') -> table_wf t'.
Proof.
  unfold createTopic. intros Hwf H.
  apply try_catch_cases in H as [H|[-> _]]; [|exact Hwf].
  apply bind_Return_inv in H as (ps & Hps & H).
  apply createTopic_params_Return in Hps as ->.
  apply bind_Return_inv in H as ([res1 t1] & Hq & H). injection H as _ <-.
  unfold pool_query in Hq. rewrite parse_insert in Hq.
  apply exec_insert_Return in Hq as (r & _ & -> & Hr & _).
  unfold table_wf in *. cbn [rows auto_increment].
  apply Forall_app. split.
  - eapply Forall_impl; [exact Hwf|]. intros x Hx. cbv beta in Hx. lia.
  - constructor; [lia|constructor].
Qed.

Lemma updateTopic_preserves_wf t now id updates res t' :
  table_wf t -> updateTopic (Some t) now id updates = (res, Some t') -> table_wf t'.
Proof.
  intros Hwf H.
  apply updateTopic_cases in H as [[-> _]|(_ & Hai & Hall)]; [exact Hwf|].
  unfold table_wf in *. rewrite Hai. clear Hai.
  induction Hall as [|r r' l l' Hrr' _ IH]; [constructor|].
  inversion Hwf as [|? ? Hr Hl]; subst.
  constructor; [|now apply IH].
  now rewrite (update_effect_same_id _ _ _ _ Hrr').
Qed.

Lemma deleteTopic_preserves_wf t now id res t' :
  table_wf t -> deleteTopic (Some t) now id = (res, Some t') -> table_wf t'.
Proof.
  unfold deleteTopic. intros Hwf H.
  apply try_catch_cases in H as [H|[-> _]]; [|exact Hwf].
  apply bind_Return_inv in H as ([res1 t1] & Hq & H). injection H as _ <-.
  unfold pool_query in Hq. rewrite parse_delete in Hq.
  unfold exec, sql_key in Hq. cbn [bind] in Hq. injection Hq as _ <-.
  unfold table_wf in *. cbn [rows auto_increment].
  rewrite List.Forall_forall in *. intros x Hx.
  apply List.filter_In in Hx as [Hx _]. now apply Hwf.
Qed.

(** ** Reading back what was created *)

Lemma matching_created (t : table) (r : row) :
  table_wf t -> row_id r = auto_increment t ->
  matching (decimal (row_id r))
    {| rows := rows t ++ [r]; auto_increment := auto_increment t + 1 |} = [r].
Proof.
  intros Hwf Hid. unfold matching. cbn [rows].
  rewrite List.filter_app. cbn [List.filter].
  rewrite sql_key_eq_decimal, Z.eqb_refl.
  replace (List.filter _ (rows t)) with (@nil row); [reflexivity|].
  symmetry. unfold table_wf in Hwf. induction Hwf as [|x l Hx _ IH]; [reflexivity|].
  cbn [List.filter]. rewrite sql_key_eq_decimal.
  destruct (Z.eqb_spec (row_id x) (row_id r)) as [Heq|_]; [lia|exact IH].
Qed.

(** The topic created is the one a fetch by the answered id returns. *)
Lemma create_then_get t now body id t' now' :
  table_wf t ->
  createTopic (Some t) now body = (json (Created id), Some t') ->
  exists r,
    rows t' = rows t ++ [r] /\ row_id r = id
    /\ getTopic (Some t') now' (decimal id) = (json (OneTopic (to_topic now' r)), Some t')
    /\ sql_text (prop body "title") = Return (Some (row_title r))
    /\ sql_text (prop body "category") = Return (row_category r)
    /\ sql_text (keywords_string (prop body "keywords")) = Return (row_keywords r)
    /\ row_preview r = Some (preview_of (prop body "content"))
    /\ sql_text (js_or (prop body "author") (VStr Usuario)) = Return (row_author r).
Proof.
  intros Hwf H.
  apply createTopic_Created in H as (r & Hid & -> & Hr & Ht & Hc & Hk & Hp & _ & Ha & _).
  exists r. repeat split; try assumption.
  rewrite getTopic_rows. rewrite <- Hr.
  rewrite matching_created; [reflexivity|exact Hwf|congruence].
Qed.

End HandlerFacts.

(** ** The claims *)

Section Claims.
Context {E : Engine} {R : Runtime}.

(** C1. On create and on update in full-replacement mode, the stored
    preview is derived from the submitted content: its markup tags removed,
    the first 200 characters taken, and the ellipsis appended, when the
    content is a non-empty text; and the empty string when the content is
    empty or absent.  Creating a topic with content ["<b>Hi</b> there"]
    computes the preview ["Hi there..."]. *)
Theorem preview_derived_from_content (t : table) (now : Z) (body : gmap string value) :
  (forall id t',
      createTopic (Some t) now body = (json (Created id), Some t') ->
      exists r, rows t' = rows t ++ [r] /\ row_id r = id
                /\ is_preview_of (prop body "content") (row_preview r))
  /\ (forall key t',
         truthy (prop body "incrementView") = false ->
         truthy (prop body "incrementHelpful") = false ->
         updateTopic (Some t) now key body = (json Success, Some t') ->
         forall r', In r' (rows t') -> sql_key_eq (row_id r') key = true ->
                    is_preview_of (prop body "content") (row_preview r'))
  /\ createTopic_params scenario_body
     = Return [VStr (lit "X"); VUndefined; VStr []; VStr (lit "Hi there...");
               VStr (lit "<b>Hi</b> there"); VStr Usuario].
Proof.
  split; [|split].
  - intros id t' H.
    apply createTopic_Created in H as (r & _ & -> & Hid & _ & _ & _ & Hp & _).
    exists r. repeat split; [exact Hid|]. rewrite Hp. apply preview_of_is_preview.
  - intros key t' Hv Hh H r' Hin Hkey.
    destruct (updateTopic_row_replaced _ _ _ _ _ _ Hv Hh H Hin Hkey)
      as (r & _ & _ & _ & _ & _ & Hp & _).
    unfold sql_text in Hp. injection Hp as <-. apply preview_of_is_preview.
  - vm_compute. reflexivity.
Qed.

(** C2, as amended.  A list of keywords submitted at create reads back as
    the same list when no keyword contains a comma, no keyword has white
    space at either end, and the list is not the single empty keyword. *)
Theorem keywords_round_trip (t : table) (now now' : Z) (body : gmap string value)
    (ks : list jsstring) (id : Z) (t' : table) :
  table_wf t ->
  prop body "keywords" = VArr (map VStr ks) ->
  Forall plain_keyword ks ->
  ks <> [[]] ->
  createTopic (Some t) now body = (json (Created id), Some t') ->
  exists tp,
    getTopic (Some t') now' (decimal id) = (json (OneTopic tp), Some t')
    /\ topic_keywords tp = ks.
Proof.
  intros Hwf Hbody Hplain Hne H.
  destruct (create_then_get _ _ _ _ _ now' Hwf H) as (r & _ & _ & Hget & _ & _ & Hk & _).
  exists (to_topic now' r). split; [exact Hget|].
  rewrite Hbody in Hk. cbn [keywords_string] in Hk. rewrite join_of_strings in Hk.
  unfold sql_text in Hk. injection Hk as Hk.
  unfold to_topic. cbn [topic_keywords]. rewrite <- Hk.
  destruct (join_strings (lit ", ") ks) as [|c k] eqn:Hj.
  - apply join_strings_empty in Hj as [->|[->|Hj]]; [reflexivity|contradiction|discriminate].
  - rewrite <- Hj. apply split_join_keywords; [|exact Hplain].
    intros ->. discriminate.
Qed.

(** C3, as amended.  An update runs one of three modes, chosen in this
    order.  With the increment-view flag set, it answers as for a body that
    holds only that flag, and adds one to [views] of the rows with the id.
    Otherwise, with the increment-helpful flag set, likewise for [helpful].
    Otherwise it replaces title, category, keywords, preview, content and
    author of the rows with the id from the body alone; a field left out
    is passed as [undefined] (title, category, content) or as the empty
    string (keywords, preview), except the author, for which the
    placeholder is passed. *)
Theorem update_modes (t : table) (now : Z) (id : jsstring) (updates : gmap string value) :
  (truthy (prop updates "incrementView") = true ->
   updateTopic (Some t) now id updates
   = updateTopic (Some t) now id {[ "incrementView" := VBool true ]}
   /\ forall t',
       updateTopic (Some t) now id updates = (json Success, Some t') ->
       auto_increment t' = auto_increment t
       /\ Forall2 (fun r r' =>
                     r' = if sql_key_eq (row_id r) id
                          then with_views (row_views r + 1) r else r)
            (rows t) (rows t'))
  /\ (truthy (prop updates "incrementView") = false ->
      truthy (prop updates "incrementHelpful") = true ->
      updateTopic (Some t) now id updates
      = updateTopic (Some t) now id {[ "incrementHelpful" := VBool true ]}
      /\ forall t',
          updateTopic (Some t) now id updates = (json Success, Some t') ->
          auto_increment t' = auto_increment t
          /\ Forall2 (fun r r' =>
                        r' = if sql_key_eq (row_id r) id
                             then with_helpful (row_helpful r + 1) r else r)
               (rows t) (rows t'))
  /\ (truthy (prop updates "incrementView") = false ->
      truthy (prop updates "incrementHelpful") = false ->
      (forall t',
          updateTopic (Some t) now id updates = (json Success, Some t') ->
          auto_increment t' = auto_increment t
          /\ Forall2 (fun r r' =>
                        if sql_key_eq (row_id r) id then
                          replaced (prop updates "title") (prop updates "category")
                            (keywords_string (prop updates "keywords"))
                            (VStr (preview_of (prop updates "content")))
                            (prop updates "content")
                            (js_or (prop updates "author") (VStr Usuario)) r r'
                        else r' = r)
               (rows t) (rows t'))
      /\ (updates !! "title" = None -> prop updates "title" = VUndefined)
      /\ (updates !! "category" = None -> prop updates "category" = VUndefined)
      /\ (updates !! "keywords" = None ->
          keywords_string (prop updates "keywords") = VStr [])
      /\ (updates !! "content" = None ->
          preview_of (prop updates "content") = [] /\ prop updates "content" = VUndefined)
      /\ (updates !! "author" = None ->
          js_or (prop updates "author") (VStr Usuario) = VStr Usuario)).
Proof.
  split; [|split].
  - intros Hv. split.
    + unfold updateTopic. now rewrite Hv.
    + intros t' H. unfold updateTopic in H. rewrite Hv in H.
      apply try_catch_200 in H; [|reflexivity].
      apply bind_Return_inv in H as (t0 & H0 & H). injection H as <-.
      apply bind_Return_inv in H0 as ([res t1] & Hq & H0). injection H0 as <-.
      unfold pool_query in Hq. rewrite parse_increment_views in Hq.
      now apply exec_increment_views_Return in Hq.
  - intros Hv Hh. split.
    + unfold updateTopic. now rewrite Hv, Hh.
    + intros t' H. unfold updateTopic in H. rewrite Hv, Hh in H.
      apply try_catch_200 in H; [|reflexivity].
      apply bind_Return_inv in H as (t0 & H0 & H). injection H as <-.
      apply bind_Return_inv in H0 as ([res t1] & Hq & H0). injection H0 as <-.
      unfold pool_query in Hq. rewrite parse_increment_helpful in Hq.
      now apply exec_increment_helpful_Return in Hq.
  - intros Hv Hh. split; [|repeat split].
    + intros t' H. now apply (updateTopic_replaced _ _ _ _ _ Hv Hh H).
    + intros H. unfold prop. now rewrite H.
    + intros H. unfold prop. now rewrite H.
    + intros H. unfold prop. now rewrite H.
    + unfold prop. now rewrite H.
    + unfold prop. now rewrite H.
    + intros H. unfold prop. now rewrite H.
Qed.

(** C4. With no database configured, listing topics answers with an empty
    array and category statistics with an empty array, while create, update
    and delete answer with an error and touch no storage. *)
Theorem no_database_degrades (now : Z) (query body : gmap string value) (id : jsstring) :
  getTopics None now query = (json (Topics []), None)
  /\ categoryStats None now = (json (CategoryCounts []), None)
  /\ createTopic None now body
     = (status_json 500 (Error (lit "Database not available")), None)
  /\ updateTopic None now id body
     = (status_json 500 (Error (lit "Database not available")), None)
  /\ deleteTopic None now id
     = (status_json 500 (Error (lit "Database not available")), None).
Proof. repeat split. Qed.

(** C5. Fetching one topic answers with the Topic of the matching row when
    exactly one row has the id (its columns as stored, its keywords as the
    list of trimmed pieces and its date as a day), and with 404 and an error
    body when no row has it; with no database configured it always answers
    404. *)
Theorem getTopic_found_or_404 (t : table) (now : Z) (id : jsstring) :
  (forall r, matching id t = [r] ->
             exists tp, getTopic (Some t) now id = (json (OneTopic tp), Some t)
                        /\ is_topic_of now r tp)
  /\ (matching id t = [] ->
      getTopic (Some t) now id = (status_json 404 (Error (lit "Topic not found")), Some t))
  /\ getTopic None now id = (status_json 404 (Error (lit "Topic not found")), None).
Proof.
  repeat split.
  - intros r H. exists (to_topic now r). rewrite getTopic_rows, H.
    split; [reflexivity|apply to_topic_is_topic].
  - intros H. now rewrite getTopic_rows, H.
Qed.

(** C6, as amended.  A fetch right after a create returns the submitted
    title, category and author (the placeholder for a falsy author), and a
    preview made of a prefix, at most 200 characters long, of the content
    with its markup stripped, followed by the ellipsis when the content is
    non-empty. *)
Theorem created_topic_reads_back (t : table) (now now' : Z) (body : gmap string value)
    (id : Z) (t' : table) :
  table_wf t ->
  createTopic (Some t) now body = (json (Created id), Some t') ->
  exists tp,
    getTopic (Some t') now' (decimal id) = (json (OneTopic tp), Some t')
    /\ sql_text (prop body "title") = Return (Some (topic_title tp))
    /\ sql_text (prop body "category") = Return (topic_category tp)
    /\ sql_text (js_or (prop body "author") (VStr Usuario)) = Return (topic_author tp)
    /\ exists p stripped,
        strips (text_of (prop body "content")) stripped
        /\ p `prefix_of` stripped
        /\ (length p <= 200)%nat
        /\ topic_preview tp = Some (p ++ ellipsis_of (prop body "content")).
Proof.
  intros Hwf H.
  destruct (create_then_get _ _ _ _ _ now' Hwf H)
    as (r & _ & _ & Hget & Ht & Hc & _ & Hp & Ha).
  exists (to_topic now' r). repeat split; try assumption.
  destruct (preview_of_prefix (prop body "content")) as (p & stripped & Hs & Hpre & Hlen & Heq).
  exists p, stripped. repeat split; try assumption.
  cbn [to_topic topic_preview]. now rewrite Hp, Heq.
Qed.

(** C7. Listing with the category filter set to ["all"] gives the same
    answer as listing with no category filter, whatever the table, the
    search text and the limit. *)
Theorem category_all_is_no_filter (pool : option table) (now : Z)
    (query : gmap string value) :
  getTopics pool now (<["category" := VStr (lit "all")]> query)
  = getTopics pool now (delete "category" query).
Proof.
  destruct pool as [t|]; [|reflexivity].
  unfold getTopics.
  rewrite (getTopics_query_category (<["category" := VStr (lit "all")]> query)
             (delete "category" query)); [reflexivity| | | |].
  - unfold prop. now rewrite lookup_insert_ne, lookup_delete_ne.
  - unfold prop. now rewrite lookup_insert_ne, lookup_delete_ne.
  - unfold prop. rewrite lookup_insert_eq. reflexivity.
  - unfold prop. rewrite lookup_delete_eq. reflexivity.
Qed.

(** C8. Update in full-replacement mode computes the keywords string and
    the preview as create does: for every body, the parameters of the UPDATE
    are those of the INSERT followed by the id, and the one computation
    fails exactly when the other does. *)
Theorem update_computes_as_create (id : jsstring) (body : gmap string value) :
  updateTopic_params id body
  = (let! params := createTopic_params body in Return (params ++ [VStr id])).
Proof.
  unfold updateTopic_params, createTopic_params.
  destruct (truthy (prop body "content")); [|reflexivity].
  destruct (call_replace_tags (prop body "content")); reflexivity.
Qed.


(** C10. On create and on update in full-replacement mode, every falsy
    author, the empty string included, is replaced by the placeholder: the
    row stores ['Usuário'], not the empty string and not the submitted
    value. *)
Theorem falsy_author_stores_placeholder (t : table) (now : Z) (body : gmap string value) :
  truthy (prop body "author") = false ->
  (forall id t',
      createTopic (Some t) now body = (json (Created id), Some t') ->
      exists r, rows t' = rows t ++ [r] /\ row_id r = id
                /\ row_author r = Some Usuario
                /\ row_author r <> Some []
                /\ sql_text (prop body "author") <> Return (row_author r))
  /\ (forall key t',
         truthy (prop body "incrementView") = false ->
         truthy (prop body "incrementHelpful") = false ->
         updateTopic (Some t) now key body = (json Success, Some t') ->
         forall r', In r' (rows t') -> sql_key_eq (row_id r') key = true ->
                    row_author r' = Some Usuario
                    /\ row_author r' <> Some []
                    /\ sql_text (prop body "author") <> Return (row_author r')).
Proof.
  intros Hfalsy.
  assert (forall a, a = Some Usuario ->
                    a = Some Usuario /\ a <> Some []
                    /\ sql_text (prop body "author") <> Return a) as Hstored.
  { intros a ->. split; [reflexivity|].
    split; [intros H; vm_compute in H; discriminate H|].
    destruct (prop body "author") as [| |[|]|n| |[|c s]|l|o]; try discriminate Hfalsy.
    all: try (cbn [truthy] in Hfalsy; apply negb_false_iff, Z.eqb_eq in Hfalsy; subst n).
    all: intros H; vm_compute in H; discriminate H. }
  split.
  - intros id t' H.
    apply createTopic_Created in H as (r & _ & -> & Hid & _ & _ & _ & _ & _ & Ha & _).
    exists r. split; [reflexivity|]. split; [exact Hid|]. apply Hstored.
    unfold js_or in Ha. rewrite Hfalsy in Ha. unfold sql_text in Ha. now injection Ha as <-.
  - intros key t' Hv Hh H r' Hin Hkey.
    destruct (updateTopic_row_replaced _ _ _ _ _ _ Hv Hh H Hin Hkey)
      as (r & _ & _ & _ & _ & _ & _ & _ & Ha & _).
    apply Hstored.
    unfold js_or in Ha. rewrite Hfalsy in Ha. unfold sql_text in Ha. now injection Ha as <-.
Qed.

End Claims.

(** ** The claims on the sample data *)

Lemma preview_derived_from_content_witness :
  (createTopic (Some empty_table) 1793574000123 scenario_body
   = (json (Created 1), Some scenario_table)
   /\ exists r, rows scenario_table = rows empty_table ++ [r] /\ row_id r = 1
                /\ is_preview_of (prop scenario_body "content") (row_preview r))
  /\ (updateTopic (Some scenario_table) 1793574000999 (lit "1") scenario_body
      = (json Success, Some scenario_table)
      /\ forall r', In r' (rows scenario_table) -> sql_key_eq (row_id r') (lit "1") = true ->
                    is_preview_of (prop scenario_body "content") (row_preview r')).
Proof.
  split.
  - assert (createTopic (Some empty_table) 1793574000123 scenario_body
            = (json (Created 1), Some scenario_table)) as H by (vm_compute; reflexivity).
    split; [exact H|].
    exact (proj1 (preview_derived_from_content empty_table 1793574000123 scenario_body)
             1 scenario_table H).
  - assert (updateTopic (Some scenario_table) 1793574000999 (lit "1") scenario_body
            = (json Success, Some scenario_table)) as H by (vm_compute; reflexivity).
    split; [exact H|].
    exact (proj1 (proj2 (preview_derived_from_content scenario_table 1793574000999 scenario_body))
             (lit "1") scenario_table eq_refl eq_refl H).
Defined.

Lemma keywords_round_trip_witness :
  table_wf empty_table
  /\ prop keywords_body "keywords" = VArr (map VStr [lit "a"; lit "b"])
  /\ Forall plain_keyword [lit "a"; lit "b"]
  /\ [lit "a"; lit "b"] <> [[]]
  /\ createTopic (Some empty_table) 1793574000123 keywords_body
     = (json (Created 1), Some keywords_table)
  /\ exists tp,
      getTopic (Some keywords_table) 1793574000999 (decimal 1)
      = (json (OneTopic tp), Some keywords_table)
      /\ topic_keywords tp = [lit "a"; lit "b"].
Proof.
  assert (Forall plain_keyword [lit "a"; lit "b"]) as Hplain
    by (repeat constructor; [apply plain_keyword_a|apply plain_keyword_b]).
  assert ([lit "a"; lit "b"] <> [[]]) as Hne by discriminate.
  assert (createTopic (Some empty_table) 1793574000123 keywords_body
          = (json (Created 1), Some keywords_table)) as H by (vm_compute; reflexivity).
  repeat (split; [first [exact empty_table_wf|reflexivity|assumption]|]).
  exact (keywords_round_trip empty_table 1793574000123 1793574000999 keywords_body
           [lit "a"; lit "b"] 1 keywords_table empty_table_wf eq_refl Hplain Hne H).
Defined.

(** A keyword with white space at an end comes back trimmed, and the single
    empty keyword comes back as no keyword: neither contains a comma. *)
Lemma keywords_round_trip_counterexample :
  ((cu_comma ∉ lit " a")
   /\ fst (createTopic (Some empty_table) 1793574000123
             (<["keywords" := VArr [VStr (lit " a")]]> scenario_body))
      = json (Created 1)
   /\ response_keywords
        (fst (getTopic
                (snd (createTopic (Some empty_table) 1793574000123
                        (<["keywords" := VArr [VStr (lit " a")]]> scenario_body)))
                1793574000999 (decimal 1)))
      = Some [lit "a"]
   /\ [lit "a"] <> [lit " a"])
  /\ ((cu_comma ∉ @nil N)
      /\ fst (createTopic (Some empty_table) 1793574000123
                (<["keywords" := VArr [VStr []]]> scenario_body))
         = json (Created 1)
      /\ response_keywords
           (fst (getTopic
                   (snd (createTopic (Some empty_table) 1793574000123
                           (<["keywords" := VArr [VStr []]]> scenario_body)))
                   1793574000999 (decimal 1)))
         = Some []
      /\ @nil jsstring <> [[]]).
Proof.
  split; (split; [|split; [vm_compute; reflexivity|split; [vm_compute; reflexivity|discriminate]]]).
  - intros H. apply list_elem_of_In in H. vm_compute in H. intuition discriminate.
  - apply not_elem_of_nil.
Qed.

Lemma update_modes_witness :
  (truthy (prop view_body "incrementView") = true
   /\ updateTopic (Some scenario_table) 1793574000999 (lit "1") view_body
      = updateTopic (Some scenario_table) 1793574000999 (lit "1")
          {[ "incrementView" := VBool true ]})
  /\ (truthy (prop helpful_body "incrementView") = false
      /\ truthy (prop helpful_body "incrementHelpful") = true
      /\ updateTopic (Some scenario_table) 1793574000999 (lit "1") helpful_body
         = updateTopic (Some scenario_table) 1793574000999 (lit "1")
             {[ "incrementHelpful" := VBool true ]})
  /\ (truthy (prop title_body "incrementView") = false
      /\ truthy (prop title_body "incrementHelpful") = false
      /\ title_body !! "author" = None
      /\ js_or (prop title_body "author") (VStr Usuario) = VStr Usuario).
Proof.
  pose proof (update_modes scenario_table 1793574000999 (lit "1") view_body) as (Hv & _ & _).
  pose proof (update_modes scenario_table 1793574000999 (lit "1") helpful_body) as (_ & Hh & _).
  pose proof (update_modes scenario_table 1793574000999 (lit "1") title_body) as (_ & _ & Ht).
  split; [|split].
  - split; [reflexivity|]. exact (proj1 (Hv eq_refl)).
  - split; [reflexivity|]. split; [reflexivity|]. exact (proj1 (Hh eq_refl eq_refl)).
  - split; [reflexivity|]. split; [reflexivity|]. split; [reflexivity|].
    destruct (Ht eq_refl eq_refl) as (_ & _ & _ & _ & _ & Ha). exact (Ha eq_refl).
Defined.

(** A full replacement that leaves the author out writes the placeholder,
    which is neither empty nor [NULL]. *)
Lemma update_modes_counterexample :
  title_body !! "author" = None
  /\ truthy (prop title_body "incrementView") = false
  /\ truthy (prop title_body "incrementHelpful") = false
  /\ fst (updateTopic (Some scenario_table) 1793574000999 (lit "1") title_body) = json Success
  /\ option_map (fun t => map row_author (rows t))
       (snd (updateTopic (Some scenario_table) 1793574000999 (lit "1") title_body))
     = Some [Some Usuario]
  /\ Some Usuario <> None /\ Some Usuario <> Some (@nil N).
Proof.
  repeat split; try (vm_compute; reflexivity); discriminate.
Qed.

Lemma getTopic_found_or_404_witness :
  (matching (lit "1") scenario_table = [scenario_row]
   /\ getTopic (Some scenario_table) 1793574000999 (lit "1")
      = (json (OneTopic scenario_topic), Some scenario_table)
   /\ exists tp,
       getTopic (Some scenario_table) 1793574000999 (lit "1")
       = (json (OneTopic tp), Some scenario_table)
       /\ is_topic_of 1793574000999 scenario_row tp)
  /\ (matching (lit "7") scenario_table = []
      /\ getTopic (Some scenario_table) 1793574000999 (lit "7")
         = (status_json 404 (Error (lit "Topic not found")), Some scenario_table)).
Proof.
  split.
  - assert (matching (lit "1") scenario_table = [scenario_row]) as H by (vm_compute; reflexivity).
    split; [exact H|]. split; [vm_compute; reflexivity|].
    exact (proj1 (getTopic_found_or_404 scenario_table 1793574000999 (lit "1")) scenario_row H).
  - assert (matching (lit "7") scenario_table = []) as H by (vm_compute; reflexivity).
    split; [exact H|].
    exact (proj1 (proj2 (getTopic_found_or_404 scenario_table 1793574000999 (lit "7"))) H).
Defined.

Lemma created_topic_reads_back_witness :
  table_wf empty_table
  /\ createTopic (Some empty_table) 1793574000123 scenario_body
     = (json (Created 1), Some scenario_table)
  /\ exists tp,
      getTopic (Some scenario_table) 1793574000999 (decimal 1)
      = (json (OneTopic tp), Some scenario_table)
      /\ sql_text (prop scenario_body "title") = Return (Some (topic_title tp))
      /\ sql_text (prop scenario_body "category") = Return (topic_category tp)
      /\ sql_text (js_or (prop scenario_body "author") (VStr Usuario))
         = Return (topic_author tp)
      /\ exists p stripped,
          strips (text_of (prop scenario_body "content")) stripped
          /\ p `prefix_of` stripped
          /\ (length p <= 200)%nat
          /\ topic_preview tp = Some (p ++ ellipsis_of (prop scenario_body "content")).
Proof.
  assert (createTopic (Some empty_table) 1793574000123 scenario_body
          = (json (Created 1), Some scenario_table)) as H by (vm_compute; reflexivity).
  split; [exact empty_table_wf|]. split; [exact H|].
  exact (created_topic_reads_back empty_table 1793574000123 1793574000999 scenario_body
           1 scenario_table empty_table_wf H).
Defined.

(** The preview read back in the scenario of the specification ends with
    the ellipsis, which is no part of the stripped content: it is not a
    prefix of it. *)
Lemma created_topic_reads_back_counterexample :
  createTopic (Some empty_table) 1793574000123 scenario_body
  = (json (Created 1), Some scenario_table)
  /\ response_preview (fst (getTopic (Some scenario_table) 1793574000999 (decimal 1)))
     = Some (lit "Hi there...")
  /\ strips (lit "<b>Hi</b> there") (lit "Hi there")
  /\ ~ (lit "Hi there..." `prefix_of` lit "Hi there").
Proof.
  split; [vm_compute; reflexivity|]. split; [vm_compute; reflexivity|]. split.
  - exact (replace_tags_strips (lit "<b>Hi</b> there")).
  - intros [k Hk]. apply (f_equal (@length N)) in Hk.
    rewrite length_app in Hk. vm_compute in Hk. lia.
Qed.



Lemma falsy_author_stores_placeholder_witness :
  truthy (prop (<["author" := VStr []]> scenario_body) "author") = false
  /\ (createTopic (Some empty_table) 1793574000123 (<["author" := VStr []]> scenario_body)
      = (json (Created 1), Some scenario_table)
      /\ exists r, rows scenario_table = rows empty_table ++ [r] /\ row_id r = 1
                   /\ row_author r = Some Usuario
                   /\ row_author r <> Some []
                   /\ sql_text (prop (<["author" := VStr []]> scenario_body) "author")
                      <> Return (row_author r))
  /\ (updateTopic (Some scenario_table) 1793574000999 (lit "1")
        (<["author" := VStr []]> scenario_body)
      = (json Success, Some scenario_table)
      /\ forall r', In r' (rows scenario_table) -> sql_key_eq (row_id r') (lit "1") = true ->
                    row_author r' = Some Usuario
                    /\ row_author r' <> Some []
                    /\ sql_text (prop (<["author" := VStr []]> scenario_body) "author")
                       <> Return (row_author r')).
Proof.
  split; [reflexivity|]. split.
  - assert (createTopic (Some empty_table) 1793574000123 (<["author" := VStr []]> scenario_body)
            = (json (Created 1), Some scenario_table)) as H by (vm_compute; reflexivity).
    split; [exact H|].
    exact (proj1 (falsy_author_stores_placeholder empty_table 1793574000123
                    (<["author" := VStr []]> scenario_body) eq_refl)
             1 scenario_table H).
  - assert (updateTopic (Some scenario_table) 1793574000999 (lit "1")
              (<["author" := VStr []]> scenario_body)
            = (json Success, Some scenario_table)) as H by (vm_compute; reflexivity).
    split; [exact H|].
    exact (proj2 (falsy_author_stores_placeholder scenario_table 1793574000999
                    (<["author" := VStr []]> scenario_body) eq_refl)
             (lit "1") scenario_table eq_refl eq_refl H).
Defined.

(** * Further properties *)

(** ** Strings *)

Lemma strips_sublist (s out : jsstring) : strips s out -> out `sublist_of` s.
Proof.
  induction 1 as [|inner rest out Hin _ IH|c rest out _ _ IH].
  - constructor.
  - apply sublist_cons. etrans; [exact IH|].
    apply sublist_inserts_l. apply sublist_cons. reflexivity.
  - now apply sublist_skip.
Qed.

Lemma sublist_not_elem (x : N) (l k : jsstring) : l `sublist_of` k -> x ∉ k -> x ∉ l.
Proof. intros Hs Hk Hl. apply Hk. eapply elem_of_sublist; eauto. Qed.

Lemma strips_tag_free (s out : jsstring) : strips s out -> tag_free out.
Proof.
  induction 1 as [|inner rest out Hin _ IH|c rest out Hc Hs IH]; simpl; [exact I|exact IH|].
  split; [|exact IH]. intros ->.
  destruct Hc as [Hc|Hc]; [congruence|].
  eapply sublist_not_elem; [apply (strips_sublist _ _ Hs)|exact Hc].
Qed.

Lemma tag_free_strips (s : jsstring) : tag_free s -> strips s s.
Proof.
  induction s as [|c r IH]; simpl; intros Hf; [constructor|].
  destruct Hf as [Hc Hr]. apply strips_keep; [|now apply IH].
  destruct (N.eq_dec c cu_lt) as [->|Hne]; [right; now apply Hc|now left].
Qed.

Lemma tag_free_firstn (n : nat) (s : jsstring) : tag_free s -> tag_free (firstn n s).
Proof.
  revert n. induction s as [|c r IH]; intros [|n]; simpl; try tauto.
  intros [Hc Hr]. split; [|now apply IH].
  intros Heq. eapply sublist_not_elem; [apply sublist_take|now apply Hc].
Qed.

Lemma tag_free_app (a b : jsstring) :
  tag_free a -> tag_free b -> cu_gt ∉ b -> tag_free (a ++ b).
Proof.
  intros Ha Hb Hgt. induction a as [|c r IH]; simpl; [exact Hb|].
  destruct Ha as [Hc Hr]. split; [|now apply IH].
  intros Heq. rewrite not_elem_of_app. split; [now apply Hc|exact Hgt].
Qed.










Lemma length_split (sep : N) (s : jsstring) :
  length (split sep s) = S (count_cu sep s).
Proof.
  induction s as [|c r IH]; simpl; [reflexivity|].
  destruct (c =? sep)%N; simpl; [now rewrite IH|].
  pose proof (split_nonempty sep r) as Hne.
  destruct (split sep r) as [|h t]; [contradiction|]. simpl in *. lia.
Qed.

Lemma count_cu_app (c : N) (a b : jsstring) :
  count_cu c (a ++ b) = (count_cu c a + count_cu c b)%nat.
Proof. induction a as [|x a IH]; simpl; [reflexivity|]. rewrite IH. lia. Qed.

Lemma replace_tags_sublist (s : jsstring) : replace_tags s `sublist_of` s.
Proof. apply strips_sublist, replace_tags_strips. Qed.

Lemma replace_tags_tag_free (s : jsstring) : tag_free (replace_tags s).
Proof. eapply strips_tag_free, replace_tags_strips. Qed.

Lemma replace_tags_fixed (s : jsstring) : tag_free s -> replace_tags s = s.
Proof.
  intros H. eapply strips_functional; [apply replace_tags_strips|now apply tag_free_strips].
Qed.

(** ** Sorting, and the statement of a listing *)

Section Sorting.
Context {A : Type} (geb : A -> A -> bool).
Hypothesis geb_total : forall a b, geb a b = false -> geb b a = true.

Lemma insert_by_perm (x : A) (l : list A) : insert_by geb x l ≡ₚ x :: l.
Proof.
  induction l as [|y r IH]; simpl; [reflexivity|].
  destruct (geb x y); [reflexivity|].
  rewrite IH. apply Permutation_swap.
Qed.

Lemma sort_desc_perm (l : list A) : sort_desc geb l ≡ₚ l.
Proof.
  induction l as [|x l IH]; simpl; [reflexivity|].
  unfold sort_desc in *. simpl. rewrite insert_by_perm. now rewrite IH.
Qed.

Lemma insert_by_hd (a x : A) (l : list A) :
  geb a x = true -> HdRel (fun u v => geb u v = true) a l ->
  HdRel (fun u v => geb u v = true) a (insert_by geb x l).
Proof.
  intros Hax Hl. destruct l as [|y r]; simpl; [now constructor|].
  destruct (geb x y); constructor; [exact Hax|].
  now inversion Hl.
Qed.

Lemma insert_by_sorted (x : A) (l : list A) :
  Sorted (fun u v => geb u v = true) l ->
  Sorted (fun u v => geb u v = true) (insert_by geb x l).
Proof.
  induction 1 as [|y r Hr IH Hhd]; simpl; [repeat constructor|].
  destruct (geb x y) eqn:Hxy.
  - constructor; [now constructor|now constructor].
  - constructor; [exact IH|]. apply insert_by_hd; [now apply geb_total|exact Hhd].
Qed.

Lemma sort_desc_sorted (l : list A) : Sorted (fun u v => geb u v = true) (sort_desc geb l).
Proof.
  induction l as [|x l IH]; [constructor|].
  unfold sort_desc in *. simpl. now apply insert_by_sorted.
Qed.

End Sorting.

Lemma Sorted_firstn {A} (R : A -> A -> Prop) (n : nat) (l : list A) :
  Sorted R l -> Sorted R (firstn n l).
Proof.
  intros H. revert n. induction H as [|x l Hl IH Hhd]; intros [|n]; simpl; try constructor.
  - apply IH.
  - destruct Hhd as [|y l' Hxy]; [destruct n; constructor|].
    destruct n; simpl; constructor. exact Hxy.
Qed.

Lemma Sorted_map {A B} (f : A -> B) (R : B -> B -> Prop) (l : list A) :
  Sorted (fun u v => R (f u) (f v)) l -> Sorted R (map f l).
Proof.
  induction 1 as [|x l Hl IH Hhd]; simpl; constructor; [exact IH|].
  destruct Hhd; simpl; constructor. assumption.
Qed.

Lemma date_geb_total (a b : option Z) : date_geb a b = false -> date_geb b a = true.
Proof.
  destruct a as [x|], b as [y|]; simpl; try discriminate; try reflexivity.
  intros H. apply Z.leb_gt in H. apply Z.leb_le. lia.
Qed.

Section ListingStatement.
Context {E : Engine} {R : Runtime}.

Lemma getTopics_query_shape (query : gmap string value) :
  getTopics_query query
  = (render (SelectTopics (listing_conditions query) (truthy (prop query "limit"))),
     listing_params query).
Proof.
  unfold getTopics_query, listing_conditions, listing_params.
  destruct (truthy (prop query "search"));
    destruct (truthy (prop query "category") && strict_ne (prop query "category") (lit "all"));
    destruct (truthy (prop query "limit")); reflexivity.
Qed.

Lemma listing_statement_known (query : gmap string value) :
  In (SelectTopics (listing_conditions query) (truthy (prop query "limit"))) statements.
Proof.
  unfold listing_conditions.
  destruct (truthy (prop query "search"));
    destruct (truthy (prop query "category") && strict_ne (prop query "category") (lit "all"));
    destruct (truthy (prop query "limit")); vm_compute; tauto.
Qed.

Lemma placeholders_match (query : gmap string value) :
  count_cu 63 (fst (getTopics_query query)) = length (snd (getTopics_query query)).
Proof.
  rewrite getTopics_query_shape. unfold listing_conditions, listing_params. cbn [fst snd].
  destruct (truthy (prop query "search"));
    destruct (truthy (prop query "category") && strict_ne (prop query "category") (lit "all"));
    destruct (truthy (prop query "limit")); reflexivity.
Qed.

End ListingStatement.

(** ** What a listing answers *)

Section ListingAnswer.
Context {E : Engine} {R : Runtime}.

Lemma where_listing (query : gmap string value) :
  match bound_category query with
  | Throw e => where_conditions (listing_conditions query) (listing_params query) = Throw e
  | Return c =>
      exists sel,
        where_conditions (listing_conditions query) (listing_params query)
        = Return (sel, if truthy (prop query "limit")
                       then [parseInt (prop query "limit")] else [])
        /\ forall r, sel r = listing_filter query c r
  end.
Proof.
  unfold bound_category, listing_conditions, listing_params, listing_filter, category_filtered.
  destruct (truthy (prop query "search"));
    destruct (truthy (prop query "category") && strict_ne (prop query "category") (lit "all"));
    cbn [app where_conditions sql_text bind].
  - destruct (sql_text (prop query "category")) as [c|e]; cbn [bind]; [|reflexivity].
    eexists. split; [reflexivity|]. intros r. cbv beta.
    unfold search_matches, category_matches. now rewrite andb_true_r.
  - eexists. split; [reflexivity|]. intros r. cbv beta.
    unfold search_matches. reflexivity.
  - destruct (sql_text (prop query "category")) as [c|e]; cbn [bind]; [|reflexivity].
    eexists. split; [reflexivity|]. intros r. cbv beta.
    unfold category_matches. now rewrite andb_true_r.
  - eexists. split; [reflexivity|]. reflexivity.
Qed.

(** What a listing answers, case by case. *)
Lemma getTopics_with_pool (t : table) (now : Z) (query : gmap string value) :
  getTopics (Some t) now query
  = match bound_category query with
    | Throw e => (status_json 500 (Error e), Some t)
    | Return c =>
        if truthy (prop query "limit") then
          match parseInt (prop query "limit") with
          | VNum n =>
              if 0 <=? n then
                (json (Topics (map (to_topic now)
                                 (firstn (Z.to_nat n) (listing_rows query c t)))), Some t)
              else (status_json 500 (Error (lit "You have an error in your SQL syntax")), Some t)
          | _ => (status_json 500 (Error (lit "Unknown column 'NaN' in 'limit clause'")), Some t)
          end
        else (json (Topics (map (to_topic now) (listing_rows query c t))), Some t)
    end.
Proof.
  unfold getTopics. rewrite getTopics_query_shape. unfold pool_query.
  rewrite (parse_render _ (listing_statement_known query)).
  unfold exec. pose proof (where_listing query) as Hw.
  destruct (bound_category query) as [c|e].
  - destruct Hw as (sel & -> & Hsel). cbn [bind].
    rewrite (List.filter_ext _ _ Hsel). fold (listing_rows query c t).
    destruct (truthy (prop query "limit")); [|reflexivity].
    unfold parseInt. destruct (parseInt_string _) as [n|]; [|reflexivity].
    destruct (0 <=? n); reflexivity.
  - rewrite Hw. reflexivity.
Qed.

End ListingAnswer.

(** ** What each route answers *)

Section RouteFacts.
Context {E : Engine} {R : Runtime}.

Lemma try_catch_result t (m : outcome (response * table)) :
  (exists res t', m = Return (res, t') /\ try_catch t m = (res, Some t'))
  \/ (exists msg, m = Throw msg /\ try_catch t m = (status_json 500 (Error msg), Some t)).
Proof. destruct m as [[res t']|msg]; [left|right]; eauto. Qed.

(** A create either fails and changes nothing, or appends one row numbered
    by the counter and answers with that number. *)
Lemma createTopic_cases t now body :
  (exists msg, createTopic (Some t) now body = (status_json 500 (Error msg), Some t))
  \/ (exists r,
        createTopic (Some t) now body
        = (json (Created (auto_increment t)),
           Some {| rows := rows t ++ [r]; auto_increment := auto_increment t + 1 |})
        /\ row_id r = auto_increment t
        /\ row_created_date r = Some (current_timestamp now)
        /\ row_views r = 0 /\ row_helpful r = 0).
Proof.
  unfold createTopic.
  destruct (try_catch_result t
    (let! params := createTopic_params body in
     let! '(result, t') :=
       pool_query
         (lit "INSERT INTO topics (title, category, keywords, preview, content, author) VALUES (?, ?, ?, ?, ?, ?)")
         params now t in
     Return (json (Created (insertId result)), t')))
    as [(res & t' & Hm & ->)|(msg & _ & ->)]; [right|left; eauto].
  apply bind_Return_inv in Hm as (ps & Hps & Hm).
  apply createTopic_params_Return in Hps as ->.
  apply bind_Return_inv in Hm as ([result t1] & Hq & Hm). injection Hm as <- <-.
  unfold pool_query in Hq. rewrite parse_insert in Hq.
  apply exec_insert_Return in Hq as (r & -> & -> & Hid & _ & _ & _ & _ & _ & _ & Hd & Hv & Hh).
  exists r. repeat split; assumption.
Qed.

(** An update either fails and changes nothing, or answers with success
    and has the effect of its mode on every row. *)
Lemma updateTopic_result t now id updates :
  (exists msg, updateTopic (Some t) now id updates = (status_json 500 (Error msg), Some t))
  \/ (exists t',
        updateTopic (Some t) now id updates = (json Success, Some t')
        /\ auto_increment t' = auto_increment t
        /\ Forall2 (update_effect id updates) (rows t) (rows t')).
Proof.
  destruct (updateTopic (Some t) now id updates) as [res p] eqn:H.
  assert (exists t', p = Some t') as (t' & ->).
  { unfold updateTopic in H.
    match type of H with try_catch _ ?m = _ =>
      destruct (try_catch_result t m) as [(r0 & t0 & _ & Hr)|(msg & _ & Hr)] end;
      rewrite Hr in H; injection H as _ <-; eauto. }
  pose proof H as H'. apply updateTopic_cases in H' as [[-> Hs]|(-> & Hai & Hall)].
  - left. unfold updateTopic in H.
    match type of H with try_catch _ ?m = _ =>
      destruct (try_catch_result t m) as [(r0 & t0 & Hm & Hr)|(msg & _ & Hr)] end;
      rewrite Hr in H; injection H as <-.
    + exfalso. apply bind_Return_inv in Hm as (t1 & _ & Hm). injection Hm as <- _.
      discriminate.
    + eauto.
  - right. eauto.
Qed.

(** A delete removes the rows with the key and always answers with
    success. *)
Lemma deleteTopic_result t now id :
  deleteTopic (Some t) now id
  = (json Success,
     Some {| rows := List.filter (fun r => negb (sql_key_eq (row_id r) id)) (rows t);
             auto_increment := auto_increment t |}).
Proof.
  unfold deleteTopic, pool_query. rewrite parse_delete. reflexivity.
Qed.

Lemma categoryStats_result t now :
  categoryStats (Some t) now
  = (json (CategoryCounts
             (sort_desc (fun a b => snd b <=? snd a) (group_by_category (rows t)))),
     Some t).
Proof.
  unfold categoryStats, pool_query. rewrite parse_stats. reflexivity.
Qed.

Lemma getTopics_keeps_pool t now query : snd (getTopics (Some t) now query) = Some t.
Proof.
  rewrite getTopics_with_pool.
  destruct (bound_category query); [|reflexivity].
  destruct (truthy (prop query "limit")); [|reflexivity].
  destruct (parseInt (prop query "limit")); try reflexivity.
  destruct (0 <=? n); reflexivity.
Qed.

Lemma getTopic_keeps_pool t now id : snd (getTopic (Some t) now id) = Some t.
Proof. rewrite getTopic_rows. now destruct (matching id t). Qed.

End RouteFacts.

(** ** The counters in closed form *)

Lemma forallb_map_ext {A B} (f : B -> bool) (g : A -> B) (h : A -> bool) (l : list A) :
  (forall a, f (g a) = h a) -> forallb f (map g l) = forallb h l.
Proof.
  intros H. induction l as [|a l IH]; [reflexivity|]. cbn. now rewrite H, IH.
Qed.

Section CounterFacts.
Context {E : Engine} {R : Runtime}.

Lemma update_where_bump (sel : row -> bool) (column : string) (get : row -> Z)
    (set : Z -> row -> row) (rs : list row) :
  update_where sel (fun r => let! n := bump column (get r) in Return (set n r)) rs
  = if forallb (fun r => negb (sel r) || (get r + 1 <=? INT_MAX)) rs
    then Return (map (fun r => if sel r then set (get r + 1) r else r) rs)
    else Throw (lit "Out of range value for column '" ++ lit column ++ lit "'").
Proof.
  induction rs as [|r rs IH]; [reflexivity|].
  cbn [update_where forallb map]. rewrite IH.
  destruct (sel r); cbn [negb orb andb bind].
  - unfold bump. destruct (get r + 1 <=? INT_MAX); cbn [bind andb]; [|reflexivity].
    destruct (forallb _ rs); reflexivity.
  - destruct (forallb _ rs); reflexivity.
Qed.

(** The increment modes in closed form. *)
Lemma updateTopic_view_mode t now id updates :
  truthy (prop updates "incrementView") = true ->
  updateTopic (Some t) now id updates
  = if views_fit id t then (json Success, Some (add_views 1 id t))
    else (status_json 500 (Error (lit "Out of range value for column 'views'")), Some t).
Proof.
  intros Hv. unfold updateTopic. rewrite Hv.
  unfold pool_query. rewrite parse_increment_views.
  unfold exec, sql_key. cbn [bind]. rewrite update_where_bump. fold (views_fit id t).
  destruct (views_fit id t); reflexivity.
Qed.

Lemma updateTopic_helpful_mode t now id updates :
  truthy (prop updates "incrementView") = false ->
  truthy (prop updates "incrementHelpful") = true ->
  updateTopic (Some t) now id updates
  = if helpful_fit id t then (json Success, Some (add_helpful 1 id t))
    else (status_json 500 (Error (lit "Out of range value for column 'helpful'")), Some t).
Proof.
  intros Hv Hh. unfold updateTopic. rewrite Hv, Hh.
  unfold pool_query. rewrite parse_increment_helpful.
  unfold exec, sql_key. cbn [bind]. rewrite update_where_bump. fold (helpful_fit id t).
  destruct (helpful_fit id t); reflexivity.
Qed.

Lemma with_views_same (r : row) : with_views (row_views r) r = r.
Proof. now destruct r. Qed.

Lemma add_views_0 id t : add_views 0 id t = t.
Proof.
  unfold add_views. destruct t as [rs ai]. cbn [rows auto_increment]. f_equal.
  induction rs as [|r rs IH]; [reflexivity|]. cbn [map]. rewrite IH. f_equal.
  destruct (sql_key_eq (row_id r) id); [|reflexivity].
  rewrite Z.add_0_r. apply with_views_same.
Qed.

Lemma add_views_add j k id t : add_views k id (add_views j id t) = add_views (j + k) id t.
Proof.
  unfold add_views. cbn [rows auto_increment]. f_equal. rewrite map_map.
  apply map_ext. intros r.
  destruct (sql_key_eq (row_id r) id) eqn:Hk; [|now rewrite Hk].
  cbn [with_views row_id row_views]. rewrite Hk. unfold with_views. cbn.
  f_equal. lia.
Qed.

Lemma views_fit_add_views k id t :
  views_fit id (add_views k id t)
  = forallb (fun r => negb (sql_key_eq (row_id r) id) || (row_views r + k + 1 <=? INT_MAX))
      (rows t).
Proof.
  unfold views_fit, add_views. cbn [rows].
  apply forallb_map_ext. intros r.
  destruct (sql_key_eq (row_id r) id) eqn:Hk; cbn; now rewrite Hk.
Qed.

Lemma views_fit_add_helpful k id id' t :
  views_fit id (add_helpful k id' t) = views_fit id t.
Proof.
  unfold views_fit, add_helpful. cbn [rows].
  apply forallb_map_ext. intros r.
  now destruct (sql_key_eq (row_id r) id').
Qed.

Lemma helpful_fit_add_views k id id' t :
  helpful_fit id (add_views k id' t) = helpful_fit id t.
Proof.
  unfold helpful_fit, add_views. cbn [rows].
  apply forallb_map_ext. intros r.
  now destruct (sql_key_eq (row_id r) id').
Qed.

Lemma add_views_add_helpful j k id id' t :
  add_views j id (add_helpful k id' t) = add_helpful k id' (add_views j id t).
Proof.
  unfold add_views, add_helpful. cbn [rows auto_increment]. f_equal. rewrite !map_map.
  apply map_ext. intros r.
  destruct (sql_key_eq (row_id r) id) eqn:Hk, (sql_key_eq (row_id r) id') eqn:Hk';
    cbn [with_views with_helpful row_id row_views row_helpful]; rewrite ?Hk, ?Hk'; reflexivity.
Qed.

End CounterFacts.

(** ** Listing and the row transform *)

Ltac answer_mismatch H :=
  unfold json, status_json in H; discriminate H.

Lemma getTopics_query_falsy (q1 q2 : gmap string value) :
  (prop q1 "search" = prop q2 "search"
   \/ truthy (prop q1 "search") = false /\ truthy (prop q2 "search") = false) ->
  (prop q1 "category" = prop q2 "category"
   \/ category_filtered q1 = false /\ category_filtered q2 = false) ->
  (prop q1 "limit" = prop q2 "limit"
   \/ truthy (prop q1 "limit") = false /\ truthy (prop q2 "limit") = false) ->
  getTopics_query q1 = getTopics_query q2.
Proof.
  intros Hs Hc Hl. unfold getTopics_query. unfold category_filtered in Hc.
  destruct Hs as [->|[-> ->]], Hc as [->|[-> ->]], Hl as [->|[-> ->]]; reflexivity.
Qed.

Section ListingTheorems.
Context {E : Engine} {R : Runtime}.

(** X1. The statement built for a listing is a well-formed SELECT: it has a
    WHERE clause exactly when a search text or a category other than ["all"]
    is given, one condition for each joined by AND, a LIMIT exactly when a
    limit is given, and as many [?] placeholders as parameters. *)
Theorem listing_statement_well_formed (query : gmap string value) :
  parse_sql (fst (getTopics_query query))
  = Some (SelectTopics (listing_conditions query) (truthy (prop query "limit")))
  /\ count_cu 63 (fst (getTopics_query query)) = length (snd (getTopics_query query)).
Proof.
  split; [|apply placeholders_match].
  rewrite getTopics_query_shape. apply parse_render, listing_statement_known.
Qed.

(** X2. An empty-string [search], [category] or [limit] parameter is
    ignored, whatever the other parameters are: the listing answers as if
    that parameter were absent. *)
Theorem empty_filters_are_ignored (pool : option table) (now : Z)
    (query : gmap string value) (k : string) :
  k = "search" \/ k = "category" \/ k = "limit" ->
  query !! k = Some (VStr []) ->
  getTopics pool now query = getTopics pool now (delete k query).
Proof.
  intros Hk Hempty.
  destruct pool as [t|]; [|reflexivity]. unfold getTopics.
  assert (prop query k = VStr []) as Hprop by (unfold prop; now rewrite Hempty).
  assert (prop (delete k query) k = VUndefined) as Hgone
    by (unfold prop; now rewrite lookup_delete_eq).
  assert (forall k', k' <> k -> prop (delete k query) k' = prop query k') as Hkept
    by (intros k' Hne; unfold prop; now rewrite lookup_delete_ne).
  rewrite (getTopics_query_falsy query (delete k query)); [reflexivity| | |].
  - destruct Hk as [-> | [-> | ->]]; [|left; symmetry; now apply Hkept..].
    right. now rewrite Hprop, Hgone.
  - destruct Hk as [-> | [-> | ->]]; [left; symmetry; now apply Hkept| |left; symmetry; now apply Hkept].
    right. unfold category_filtered. now rewrite Hprop, Hgone.
  - destruct Hk as [-> | [-> | ->]]; [left; symmetry; now apply Hkept..|].
    right. now rewrite Hprop, Hgone.
Qed.

(** X3. Listing topics, fetching one topic and the category statistics
    never change the table, nor the absence of a pool, whatever their
    inputs. *)
Theorem reads_change_nothing (pool : option table) (now : Z) (query : gmap string value)
    (id : jsstring) :
  snd (getTopics pool now query) = pool
  /\ snd (getTopic pool now id) = pool
  /\ snd (categoryStats pool now) = pool.
Proof.
  destruct pool as [t|]; [|repeat split].
  split; [apply getTopics_keeps_pool|]. split; [apply getTopic_keeps_pool|].
  now rewrite categoryStats_result.
Qed.

(** X4. With a limit given, a listing that answers with topics has parsed
    the limit to a non-negative integer [n] and lists at most [n] topics; a
    limit that parses to [NaN] or to a negative number makes the listing
    answer 500. *)
Theorem limit_caps_listing (t : table) (now : Z) (query : gmap string value) :
  truthy (prop query "limit") = true ->
  (forall l p,
      getTopics (Some t) now query = (json (Topics l), p) ->
      exists n, parseInt (prop query "limit") = VNum n /\ 0 <= n
                /\ (length l <= Z.to_nat n)%nat)
  /\ (parseInt (prop query "limit") = VNaN
      \/ (exists n, parseInt (prop query "limit") = VNum n /\ n < 0) ->
      status (fst (getTopics (Some t) now query)) = 500).
Proof.
  intros Hl. rewrite getTopics_with_pool, Hl. split.
  - intros l p H. destruct (bound_category query) as [c|e]; [|answer_mismatch H].
    destruct (parseInt (prop query "limit")) as [| | |n| | | |]; try answer_mismatch H.
    destruct (Z.leb_spec 0 n) as [Hn|Hn]; [|answer_mismatch H].
    injection H as <- _. exists n. repeat split; [exact Hn|].
    rewrite length_map. apply firstn_le_length.
  - intros Hbad. destruct (bound_category query) as [c|e]; [|reflexivity].
    destruct Hbad as [->|(n & -> & Hn)]; [reflexivity|].
    destruct (Z.leb_spec 0 n) as [Hn'|_]; [lia|reflexivity].
Qed.

(** X5. The topics of a listing are in non-increasing order of
    [created_date], rows without a date last. *)
Theorem listing_is_ordered (t : table) (now : Z) (query : gmap string value)
    (l : list topic) (p : option table) :
  getTopics (Some t) now query = (json (Topics l), p) ->
  Sorted (fun a b => date_geb a b = true) (map topic_created_date l).
Proof.
  rewrite getTopics_with_pool. intros H.
  assert (forall rs, Sorted (fun a b => date_geb (row_created_date a) (row_created_date b) = true) rs ->
                     Sorted (fun a b => date_geb a b = true)
                       (map topic_created_date (map (to_topic now) rs))) as Hmap.
  { intros rs Hrs. rewrite map_map. cbn [to_topic topic_created_date].
    now apply (Sorted_map row_created_date (fun a b => date_geb a b = true)). }
  assert (forall c, Sorted (fun a b => date_geb (row_created_date a) (row_created_date b) = true)
                      (listing_rows query c t)) as Hsorted.
  { intros c. unfold listing_rows. apply sort_desc_sorted.
    intros a b. apply date_geb_total. }
  destruct (bound_category query) as [c|e]; [|answer_mismatch H].
  destruct (truthy (prop query "limit")).
  - destruct (parseInt (prop query "limit")) as [| | |n| | | |]; try answer_mismatch H.
    destruct (0 <=? n); [|answer_mismatch H].
    injection H as <- _. apply Hmap, Sorted_firstn, Hsorted.
  - injection H as <- _. apply Hmap, Hsorted.
Qed.


(** X7. After a successful create, the listing without parameters contains
    the created topic. *)
Theorem created_topic_is_listed (t : table) (now now' : Z) (body : gmap string value)
    (id : Z) (t' : table) :
  createTopic (Some t) now body = (json (Created id), Some t') ->
  exists l r,
    getTopics (Some t') now' ∅ = (json (Topics l), Some t')
    /\ In r (rows t') /\ row_id r = id
    /\ In (to_topic now' r) l.
Proof.
  intros H. apply createTopic_Created in H as (r & _ & -> & Hid & _).
  rewrite getTopics_with_pool.
  change (bound_category ∅) with (Return (@None jsstring)).
  change (truthy (prop ∅ "limit")) with false. cbv iota.
  eexists. exists r. split; [reflexivity|].
  cbn [rows]. split; [apply in_or_app; right; now left|]. split; [exact Hid|].
  apply in_map. unfold listing_rows.
  eapply Permutation_in; [symmetry; apply sort_desc_perm|].
  apply List.filter_In. split; [|reflexivity].
  cbn [rows]. apply in_or_app. right. now left.
Qed.


(** X9. The [date] of a returned topic is the part of the ISO string of its
    [created_date] (of the time of the request when the row has none) that
    precedes the first ['T']: it holds no ['T'], and the ISO string is the
    date followed by a ['T'] and the rest, or the date itself when it has no
    ['T']. *)
Theorem topic_date_is_iso_day (now : Z) (r : row) :
  (cu_T ∉ topic_date (to_topic now r))
  /\ ((exists rest,
         toISOString (default now (row_created_date r))
         = topic_date (to_topic now r) ++ cu_T :: rest)
      \/ (cu_T ∉ toISOString (default now (row_created_date r)))
         /\ topic_date (to_topic now r) = toISOString (default now (row_created_date r))).
Proof.
  set (iso := toISOString (default now (row_created_date r))).
  assert (topic_date (to_topic now r) = hd [] (split cu_T iso)) as ->.
  { unfold iso. cbn [to_topic topic_date]. now destruct (row_created_date r). }
  destruct (split_hd_first cu_T iso) as [Hn [Hs|Hs]].
  - split; [exact Hn|]. right. split; [|now symmetry]. rewrite Hs. exact Hn.
  - split; [exact Hn|]. now left.
Qed.

End ListingTheorems.

(** ** Content and preview *)

Lemma tag_free_ellipsis : tag_free (lit "...") /\ cu_gt ∉ lit "...".
Proof.
  split.
  - repeat split; discriminate.
  - rewrite list_elem_of_In. vm_compute. intuition discriminate.
Qed.

Lemma preview_of_bounded (content : value) :
  (length (preview_of content) <= 203)%nat
  /\ tag_free (preview_of content)
  /\ (truthy content = true -> optional_text content = true ->
      lit "..." `suffix_of` preview_of content).
Proof.
  destruct content as [| |b|n| |[|c s]|l|o]; cbn [preview_of];
    try (split; [simpl; lia|split; [exact I|intros; discriminate]]).
  split; [|split].
  - rewrite length_app.
    pose proof (firstn_le_length 200 (replace_tags (c :: s))) as H.
    change (length (lit "...")) with 3%nat. lia.
  - destruct tag_free_ellipsis as [Hf Hgt].
    apply tag_free_app; [|exact Hf|exact Hgt].
    apply tag_free_firstn, replace_tags_tag_free.
  - intros _ _. now apply suffix_app_r.
Qed.

Section ContentTheorems.
Context {E : Engine} {R : Runtime}.

(** X10. Stripping markup only deletes code units, leaves no ['<'] that is
    followed by a ['>'], is idempotent, and leaves unchanged a text in which
    no ['<'] is followed by a ['>']. *)
Theorem replace_tags_removes_every_tag (s : jsstring) :
  replace_tags s `sublist_of` s
  /\ tag_free (replace_tags s)
  /\ replace_tags (replace_tags s) = replace_tags s
  /\ (tag_free s -> replace_tags s = s).
Proof.
  split; [apply replace_tags_sublist|]. split; [apply replace_tags_tag_free|].
  split; [apply replace_tags_fixed, replace_tags_tag_free|apply replace_tags_fixed].
Qed.

(** X11. The preview computed on create and on update has at most 203 code
    units, has no ['<'] followed by a ['>'], and ends with the ellipsis when
    the content is truthy. *)
Theorem preview_is_bounded (id : jsstring) (body : gmap string value) (ps : list value) :
  createTopic_params body = Return ps \/ updateTopic_params id body = Return ps ->
  exists p,
    nth_error ps 3 = Some (VStr p)
    /\ (length p <= 203)%nat
    /\ tag_free p
    /\ (truthy (prop body "content") = true -> lit "..." `suffix_of` p).
Proof.
  intros H. exists (preview_of (prop body "content")).
  destruct (preview_of_bounded (prop body "content")) as (Hlen & Hfree & Hsuf).
  assert (optional_text (prop body "content") = true \/ truthy (prop body "content") = false)
    as Htext.
  { destruct H as [H|H];
      [unfold createTopic_params in H|unfold updateTopic_params in H];
      destruct (prop body "content") as [| |[|]|n| |[|c s]|l|o]; cbn in H |- *;
        try discriminate; auto;
        destruct (n =? 0); cbn in H |- *; try discriminate; auto. }
  split.
  - destruct H as [H|H];
      [apply createTopic_params_Return in H|apply updateTopic_params_Return in H];
      now subst ps.
  - repeat split; [exact Hlen|exact Hfree|].
    intros Ht. destruct Htext as [Htext|Htext]; [now apply Hsuf|congruence].
Qed.


(** X13. A create without a title ([undefined] or [null]) answers 500 and
    leaves the table unchanged: the column is [NOT NULL]. *)
Theorem missing_title_is_rejected (t : table) (now : Z) (body : gmap string value) :
  prop body "title" = VUndefined \/ prop body "title" = VNull ->
  exists msg, createTopic (Some t) now body = (status_json 500 (Error msg), Some t).
Proof.
  intros Htitle. destruct (createTopic_cases t now body) as [H|(r & H & _)]; [exact H|].
  exfalso. apply createTopic_Created in H as (r' & _ & _ & _ & Ht & _).
  destruct Htitle as [Hu|Hu]; rewrite Hu in Ht; discriminate.
Qed.

End ContentTheorems.

(** ** Runs of requests *)

Section RunTheorems.
Context {E : Engine} {R : Runtime}.


Lemma Forall2_map_eq {A B} (P : A -> A -> Prop) (f : A -> B) (l l' : list A) :
  (forall a a', P a a' -> f a' = f a) -> Forall2 P l l' -> map f l' = map f l.
Proof.
  intros H. induction 1 as [|a a' l l' Ha _ IH]; [reflexivity|].
  cbn. now rewrite (H _ _ Ha), IH.
Qed.

Lemma omap_cons {A B} (f : A -> option B) (x : A) (l : list A) :
  omap f (x :: l) = match f x with Some y => y :: omap f l | None => omap f l end.
Proof. reflexivity. Qed.

Lemma no_pool_no_change now req :
  snd (handle None now req) = None /\ created_id (fst (handle None now req)) = None.
Proof. destruct req; split; reflexivity. Qed.

(** One request on a configured pool: a create that succeeds appends the
    row numbered by the counter and moves the counter by one; every other
    outcome leaves the counter and adds no key. *)
Lemma handle_step t now req :
  exists t',
    snd (handle (Some t) now req) = Some t'
    /\ match created_id (fst (handle (Some t) now req)) with
       | Some i =>
           i = auto_increment t /\ auto_increment t' = i + 1
           /\ map row_id (rows t') = map row_id (rows t) ++ [i]
       | None =>
           auto_increment t' = auto_increment t
           /\ map row_id (rows t') `sublist_of` map row_id (rows t)
       end.
Proof.
  destruct req as [query|id|submitted|id updates|id|]; cbn [handle].
  - exists t. rewrite getTopics_keeps_pool. split; [reflexivity|].
    rewrite getTopics_with_pool.
    destruct (bound_category query); [|now split].
    destruct (truthy (prop query "limit")); [|now split].
    destruct (parseInt (prop query "limit")); try now split.
    destruct (0 <=? n); now split.
  - exists t. rewrite getTopic_keeps_pool. split; [reflexivity|].
    rewrite getTopic_rows. destruct (matching id t); now split.
  - destruct (createTopic_cases t now submitted) as [(msg & ->)|(r & -> & Hid & _)].
    + exists t. now split.
    + eexists. split; [reflexivity|]. cbn [created_id fst json body rows auto_increment].
      repeat split. rewrite map_app. cbn. now rewrite Hid.
  - destruct (updateTopic_result t now id updates) as [(msg & ->)|(t' & -> & Hai & Hall)].
    + exists t. now split.
    + exists t'. split; [reflexivity|]. cbn [created_id fst json body]. split; [exact Hai|].
      rewrite (Forall2_map_eq _ row_id _ _ (update_effect_same_id id updates) Hall).
      reflexivity.
  - rewrite deleteTopic_result. eexists. split; [reflexivity|].
    cbn [created_id fst json body rows auto_increment]. split; [reflexivity|].
    induction (rows t) as [|r rs IH]; [reflexivity|]. cbn.
    destruct (sql_key_eq (row_id r) id); cbn; [now apply sublist_cons|now apply sublist_skip].
  - rewrite categoryStats_result. exists t. now split.
Qed.

Lemma serve_cons pool now req rest :
  serve pool ((now, req) :: rest)
  = (fst (handle pool now req) :: fst (serve (snd (handle pool now req)) rest),
     snd (serve (snd (handle pool now req)) rest)).
Proof.
  cbn [serve]. destruct (handle pool now req) as [res pool'].
  cbn [fst snd]. now destruct (serve pool' rest).
Qed.

Lemma serve_no_pool reqs :
  snd (serve None reqs) = None /\ omap created_id (fst (serve None reqs)) = [].
Proof.
  induction reqs as [|[now req] rest [IH1 IH2]]; [now split|].
  rewrite serve_cons. cbn [fst snd].
  destruct (no_pool_no_change now req) as [-> Hc]. rewrite omap_cons, Hc.
  now split.
Qed.

Lemma serve_ids_bounded t reqs :
  Forall (fun i => auto_increment t <= i) (omap created_id (fst (serve (Some t) reqs)))
  /\ StronglySorted Z.lt (omap created_id (fst (serve (Some t) reqs))).
Proof.
  revert t. induction reqs as [|[now req] rest IH]; intros t; [split; constructor|].
  rewrite serve_cons. cbn [fst snd].
  destruct (handle_step t now req) as (t' & -> & Hstep).
  destruct (IH t') as [Hb Hs]. rewrite omap_cons.
  destruct (created_id (fst (handle (Some t) now req))) as [i|].
  - destruct Hstep as (-> & Hai & _). split.
    + constructor; [lia|]. eapply Forall_impl; [exact Hb|]. intros j Hj. cbv beta in Hj. lia.
    + constructor; [exact Hs|]. eapply Forall_impl; [exact Hb|]. intros j Hj. cbv beta in Hj. lia.
  - destruct Hstep as (Hai & _). rewrite Hai in Hb. now split.
Qed.

(** X15. Along any sequence of requests the ids answered by creates are
    strictly increasing: no id is handed out twice, also after deletes. *)
Theorem created_ids_increase (pool : option table) (reqs : list (Z * request)) :
  StronglySorted Z.lt (omap created_id (fst (serve pool reqs))).
Proof.
  destruct pool as [t|].
  - apply serve_ids_bounded.
  - destruct (serve_no_pool reqs) as [_ ->]. constructor.
Qed.

Lemma handle_keeps_ok t now req :
  table_ok t -> exists t', snd (handle (Some t) now req) = Some t' /\ table_ok t'.
Proof.
  intros [Hwf Hnd]. destruct (handle_step t now req) as (t' & Hp & Hstep).
  exists t'. split; [exact Hp|].
  assert (Forall (fun i => i < auto_increment t) (map row_id (rows t))) as Hids.
  { apply Forall_map. exact Hwf. }
  unfold table_ok, table_wf.
  rewrite <- (Forall_map row_id (fun i => i < auto_increment t') (rows t')).
  destruct (created_id (fst (handle (Some t) now req))) as [i|].
  - destruct Hstep as (-> & -> & ->). split.
    + apply Forall_app. split; [|repeat constructor; lia].
      eapply Forall_impl; [exact Hids|]. intros j Hj. cbv beta in Hj. lia.
    + apply NoDup_app. split; [exact Hnd|]. split; [|apply NoDup_singleton].
      intros j Hj Hj'. apply list_elem_of_singleton in Hj'. subst j.
      rewrite Forall_forall in Hids. apply Hids in Hj. lia.
  - destruct Hstep as (-> & Hsub). split.
    + rewrite Forall_forall in *. intros j Hj. apply Hids.
      eapply elem_of_sublist; eauto.
    + eapply sublist_NoDup; eauto.
Qed.

(** X16. From a table whose keys are distinct and below the counter, any
    sequence of requests leads to a table whose keys are distinct and below
    the counter. *)
Theorem runs_keep_keys_unique (t : table) (reqs : list (Z * request)) :
  table_ok t -> exists t', snd (serve (Some t) reqs) = Some t' /\ table_ok t'.
Proof.
  revert t. induction reqs as [|[now req] rest IH]; intros t Hok; [now exists t|].
  rewrite serve_cons. cbn [snd].
  destruct (handle_keeps_ok t now req Hok) as (t1 & -> & Hok1). now apply IH.
Qed.

End RunTheorems.

(** ** Counters, deletes and keywords *)

Lemma count_join_keywords (ks : list jsstring) :
  ks <> [] ->
  S (count_cu cu_comma (join_strings (lit ", ") ks))
  = (list_sum (map (count_cu cu_comma) ks) + length ks)%nat.
Proof.
  induction ks as [|k ks IH]; intros Hne; [contradiction|].
  destruct ks as [|k' ks].
  - simpl. lia.
  - change (join_strings (lit ", ") (k :: k' :: ks))
      with (k ++ cu_comma :: 32%N :: join_strings (lit ", ") (k' :: ks)).
    rewrite count_cu_app. cbn [count_cu map list_sum length].
    change (cu_comma =? cu_comma)%N with true. change (32 =? cu_comma)%N with false.
    specialize (IH ltac:(discriminate)). cbn [map length] in IH.
    cbv iota. unfold list_sum in *. cbn [fold_right] in *. lia.
Qed.

Lemma Forall2_filter_key {P : row -> row -> Prop} (sel : Z -> bool) (l l' : list row) :
  (forall r r', P r r' -> row_id r' = row_id r) ->
  Forall2 P l l' ->
  Forall2 P (List.filter (fun r => sel (row_id r)) l) (List.filter (fun r => sel (row_id r)) l').
Proof.
  intros Hid. induction 1 as [|r r' l l' Hr _ IH]; [constructor|].
  cbn. rewrite (Hid _ _ Hr). destruct (sel (row_id r)); [constructor|]; assumption.
Qed.

Section CounterTheorems.
Context {E : Engine} {R : Runtime}.

Lemma serve_views_step t now id updates rest :
  truthy (prop updates "incrementView") = true ->
  views_fit id t = true ->
  serve (Some t) ((now, PUT_topic id updates) :: rest)
  = (json Success :: fst (serve (Some (add_views 1 id t)) rest),
     snd (serve (Some (add_views 1 id t)) rest)).
Proof.
  intros Hv Hfit. rewrite serve_cons. cbn [handle].
  now rewrite (updateTopic_view_mode _ _ _ _ Hv), Hfit.
Qed.

(** X17. Successive record-a-view updates of an id, as long as the counters
    stay in the range of INT, all answer success and add to [views] of the
    rows with the id exactly the number of calls, changing nothing else. *)
Theorem views_count_every_call (t : table) (id : jsstring) (updates : gmap string value)
    (times : list Z) :
  truthy (prop updates "incrementView") = true ->
  Forall (fun r => sql_key_eq (row_id r) id = true ->
                   row_views r + Z.of_nat (length times) <= INT_MAX) (rows t) ->
  serve (Some t) (map (fun now => (now, PUT_topic id updates)) times)
  = (map (fun _ => json Success) times,
     Some (add_views (Z.of_nat (length times)) id t)).
Proof.
  intros Hv. revert t. induction times as [|now times IH]; intros t Hcap.
  - cbn. now rewrite add_views_0.
  - cbn [map]. rewrite (serve_views_step _ _ _ _ _ Hv).
    + rewrite IH.
      * cbn [fst snd map]. rewrite add_views_add. do 3 f_equal. cbn [length]. lia.
      * unfold add_views. cbn [rows]. apply Forall_map.
        eapply Forall_impl; [exact Hcap|]. intros r Hr. cbv beta in Hr |- *.
        destruct (sql_key_eq (row_id r) id) eqn:Hk; cbn [with_views row_id row_views];
          rewrite Hk; intros Hk'; [|discriminate].
        specialize (Hr eq_refl). cbn [length] in Hr. lia.
    + unfold views_fit. apply forallb_forall. intros r Hr.
      rewrite Forall_forall in Hcap. specialize (Hcap r).
      destruct (sql_key_eq (row_id r) id); [|reflexivity]. cbn [negb orb].
      apply Z.leb_le. rewrite list_elem_of_In in Hcap. specialize (Hcap Hr eq_refl).
      cbn [length] in Hcap. lia.
Qed.

(** X18. A record-a-view update and a mark-helpful update leave the same
    table in either order. *)
Theorem increments_commute (t : table) (id id' : jsstring) (now1 now2 now3 now4 : Z)
    (view helpful : gmap string value) :
  truthy (prop view "incrementView") = true ->
  truthy (prop helpful "incrementView") = false ->
  truthy (prop helpful "incrementHelpful") = true ->
  snd (serve (Some t) [(now1, PUT_topic id view); (now2, PUT_topic id' helpful)])
  = snd (serve (Some t) [(now3, PUT_topic id' helpful); (now4, PUT_topic id view)]).
Proof.
  intros Hv Hhv Hh. rewrite !serve_cons. cbn [serve snd handle].
  rewrite (updateTopic_view_mode t _ _ _ Hv), (updateTopic_helpful_mode t _ _ _ Hhv Hh).
  destruct (views_fit id t) eqn:Fv, (helpful_fit id' t) eqn:Fh; cbn [snd].
  - rewrite (updateTopic_helpful_mode _ _ _ _ Hhv Hh), (updateTopic_view_mode _ _ _ _ Hv).
    rewrite helpful_fit_add_views, views_fit_add_helpful, Fv, Fh. cbn [snd].
    now rewrite add_views_add_helpful.
  - rewrite (updateTopic_helpful_mode _ _ _ _ Hhv Hh), (updateTopic_view_mode _ _ _ _ Hv).
    now rewrite helpful_fit_add_views, Fv, Fh.
  - rewrite (updateTopic_helpful_mode _ _ _ _ Hhv Hh), (updateTopic_view_mode _ _ _ _ Hv).
    now rewrite views_fit_add_helpful, Fv, Fh.
  - rewrite (updateTopic_helpful_mode _ _ _ _ Hhv Hh), (updateTopic_view_mode _ _ _ _ Hv).
    now rewrite Fv, Fh.
Qed.

(** X19. A delete answers success and removes exactly the rows with the id:
    the others keep their order and the counter stays.  After it a fetch of
    the id answers 404 and a second delete changes nothing. *)
Theorem deleted_topic_is_gone (t : table) (now now' : Z) (id : jsstring) :
  exists t',
    deleteTopic (Some t) now id = (json Success, Some t')
    /\ rows t' = List.filter (fun r => negb (sql_key_eq (row_id r) id)) (rows t)
    /\ auto_increment t' = auto_increment t
    /\ matching id t' = []
    /\ getTopic (Some t') now' id = (status_json 404 (Error (lit "Topic not found")), Some t')
    /\ deleteTopic (Some t') now' id = (json Success, Some t').
Proof.
  rewrite deleteTopic_result. eexists. split; [reflexivity|].
  assert (forall rs, List.filter (fun r => sql_key_eq (row_id r) id)
                       (List.filter (fun r => negb (sql_key_eq (row_id r) id)) rs) = [])
    as Hnone.
  { induction rs as [|r rs IH]; [reflexivity|]. cbn.
    destruct (sql_key_eq (row_id r) id) eqn:Hk; cbn; [exact IH|]. now rewrite Hk. }
  split; [reflexivity|]. split; [reflexivity|]. split; [apply Hnone|]. split.
  - rewrite getTopic_rows. unfold matching. cbn [rows]. now rewrite Hnone.
  - rewrite deleteTopic_result. cbn [rows auto_increment]. do 3 f_equal.
    apply filter_all. intros r Hr. apply List.filter_In in Hr. tauto.
Qed.


(** X21. A list of keywords whose join is non-empty reads back with one
    keyword for each submitted keyword and one more for each comma inside a
    keyword. *)
Theorem keyword_with_commas_splits (t : table) (now now' : Z) (body : gmap string value)
    (ks : list jsstring) (id : Z) (t' : table) :
  table_wf t ->
  prop body "keywords" = VArr (map VStr ks) ->
  join_strings (lit ", ") ks <> [] ->
  createTopic (Some t) now body = (json (Created id), Some t') ->
  exists tp,
    getTopic (Some t') now' (decimal id) = (json (OneTopic tp), Some t')
    /\ length (topic_keywords tp)
       = (length ks + list_sum (map (count_cu cu_comma) ks))%nat.
Proof.
  intros Hwf Hbody Hne H.
  destruct (create_then_get _ _ _ _ _ now' Hwf H) as (r & _ & _ & Hget & _ & _ & Hk & _).
  exists (to_topic now' r). split; [exact Hget|].
  rewrite Hbody in Hk. cbn [keywords_string] in Hk. rewrite join_of_strings in Hk.
  unfold sql_text in Hk. injection Hk as Hk.
  cbn [to_topic topic_keywords]. rewrite <- Hk.
  destruct (join_strings (lit ", ") ks) as [|c k] eqn:Hj; [contradiction|].
  rewrite <- Hj, length_map, length_split, count_join_keywords; [lia|].
  intros ->. discriminate.
Qed.

(** X22. Keywords submitted as a non-empty string are stored as they are,
    and read back split at the commas with each piece trimmed. *)
Theorem keywords_text_passes_through (t : table) (now now' : Z) (body : gmap string value)
    (c : N) (s : jsstring) (id : Z) (t' : table) :
  table_wf t ->
  prop body "keywords" = VStr (c :: s) ->
  createTopic (Some t) now body = (json (Created id), Some t') ->
  exists tp,
    getTopic (Some t') now' (decimal id) = (json (OneTopic tp), Some t')
    /\ topic_keywords tp = map trim (split cu_comma (c :: s)).
Proof.
  intros Hwf Hbody H.
  destruct (create_then_get _ _ _ _ _ now' Hwf H) as (r & _ & _ & Hget & _ & _ & Hk & _).
  exists (to_topic now' r). split; [exact Hget|].
  rewrite Hbody in Hk. cbn in Hk. injection Hk as Hk.
  cbn [to_topic topic_keywords]. now rewrite <- Hk.
Qed.

End CounterTheorems.

(** ** Statistics, statuses and reading back *)

Lemma total_count_perm (l k : list (option jsstring * Z)) :
  l ≡ₚ k -> total_count l = total_count k.
Proof.
  induction 1 as [|x l k _ IH|x y l|l k m _ IH1 _ IH2];
    unfold total_count in *; cbn [fold_right] in *; lia.
Qed.

Section ReadBackTheorems.
Context {E : Engine} {R : Runtime}.

Lemma count_in_total c groups : total_count (count_in c groups) = total_count groups + 1.
Proof.
  induction groups as [|[k n] groups IH]; [reflexivity|]. cbn [count_in].
  destruct (same_category k c); unfold total_count in *; cbn [fold_right snd] in *; lia.
Qed.

Lemma count_in_positive c groups :
  Forall (fun g => 1 <= snd g) groups -> Forall (fun g => 1 <= snd g) (count_in c groups).
Proof.
  induction 1 as [|[k n] groups Hg Hrest IH]; cbn [count_in]; [repeat constructor; cbn; lia|].
  destruct (same_category k c); constructor; cbn [snd] in *; try lia; assumption.
Qed.

Lemma group_by_category_counts (rs : list row) :
  total_count (group_by_category rs) = Z.of_nat (length rs)
  /\ Forall (fun g => 1 <= snd g) (group_by_category rs).
Proof.
  unfold group_by_category.
  assert (forall groups,
             Forall (fun g => 1 <= snd g) groups ->
             total_count (fold_left (fun groups r => count_in (row_category r) groups) rs groups)
             = total_count groups + Z.of_nat (length rs)
             /\ Forall (fun g => 1 <= snd g)
                  (fold_left (fun groups r => count_in (row_category r) groups) rs groups))
    as H.
  { induction rs as [|r rs IH]; intros groups Hg; cbn [fold_left length].
    - split; [lia|exact Hg].
    - destruct (IH (count_in (row_category r) groups) (count_in_positive _ _ Hg)) as [-> Hp].
      split; [|exact Hp]. rewrite count_in_total. lia. }
  destruct (H [] ltac:(constructor)) as [-> Hp]. split; [reflexivity|exact Hp].
Qed.

(** X23. The category statistics answer with groups whose counts are at
    least 1, add up to the number of rows, and are in non-increasing
    order. *)
Theorem category_counts_cover_rows (t : table) (now : Z) :
  exists l,
    categoryStats (Some t) now = (json (CategoryCounts l), Some t)
    /\ total_count l = Z.of_nat (length (rows t))
    /\ Forall (fun g => 1 <= snd g) l
    /\ Sorted (fun a b => snd b <= snd a) l.
Proof.
  rewrite categoryStats_result. eexists. split; [reflexivity|].
  destruct (group_by_category_counts (rows t)) as [Htotal Hpos].
  split; [|split].
  - rewrite <- Htotal. apply total_count_perm, sort_desc_perm.
  - now rewrite sort_desc_perm.
  - eapply Sorted_ind with (P := fun l => Sorted (fun a b => snd b <= snd a) l);
      [constructor| |apply (sort_desc_sorted (fun a b : option jsstring * Z => snd b <=? snd a))].
    + intros a l _ IH Hhd. constructor; [exact IH|].
      destruct Hhd as [|b l' Hab]; constructor. now apply Z.leb_le.
    + intros a b Hab. apply Z.leb_gt in Hab. apply Z.leb_le. lia.
Qed.

(** X24. Every answer of the topics routes has status 200 and a body that
    is no error, or status 500 and an error body, or, for the fetch of one
    topic only, status 404 and an error body. *)
Theorem status_tells_errors (pool : option table) (now : Z) (req : request) :
  (status (fst (handle pool now req)) = 200 /\ is_error (fst (handle pool now req)) = false)
  \/ (status (fst (handle pool now req)) = 404 /\ is_error (fst (handle pool now req)) = true
      /\ exists id, req = GET_topic id)
  \/ (status (fst (handle pool now req)) = 500 /\ is_error (fst (handle pool now req)) = true).
Proof.
  destruct pool as [t|].
  - destruct req as [query|id|submitted|id updates|id|]; cbn [handle].
    + rewrite getTopics_with_pool.
      destruct (bound_category query); [|right; right; now split].
      destruct (truthy (prop query "limit")); [|left; now split].
      destruct (parseInt (prop query "limit")); try (right; right; now split).
      destruct (0 <=? n); [left|right; right]; now split.
    + rewrite getTopic_rows. destruct (matching id t); [right; left|left]; eauto.
    + destruct (createTopic_cases t now submitted) as [(msg & ->)|(r & -> & _)];
        [right; right|left]; now split.
    + destruct (updateTopic_result t now id updates) as [(msg & ->)|(t' & -> & _)];
        [right; right|left]; now split.
    + rewrite deleteTopic_result. left. now split.
    + rewrite categoryStats_result. left. now split.
  - destruct req as [query|id|submitted|id updates|id|]; cbn [handle];
      first [left; now split | right; right; now split | right; left; eauto].
Qed.

(** X25. After a successful full-replacement update of the one row with the
    id, a fetch of the id returns the title, category, author and preview of
    the body, with the id, [created_date], [views] and [helpful] of the row
    as they were. *)
Theorem updated_topic_reads_back (t : table) (now now' : Z) (id : jsstring)
    (updates : gmap string value) (r : row) (t' : table) :
  matching id t = [r] ->
  truthy (prop updates "incrementView") = false ->
  truthy (prop updates "incrementHelpful") = false ->
  updateTopic (Some t) now id updates = (json Success, Some t') ->
  exists tp,
    getTopic (Some t') now' id = (json (OneTopic tp), Some t')
    /\ sql_text (prop updates "title") = Return (Some (topic_title tp))
    /\ sql_text (prop updates "category") = Return (topic_category tp)
    /\ sql_text (js_or (prop updates "author") (VStr Usuario)) = Return (topic_author tp)
    /\ topic_preview tp = Some (preview_of (prop updates "content"))
    /\ topic_id tp = row_id r
    /\ topic_created_date tp = row_created_date r
    /\ topic_views tp = row_views r
    /\ topic_helpful tp = row_helpful r.
Proof.
  intros Hm Hv Hh H.
  destruct (updateTopic_replaced _ _ _ _ _ Hv Hh H) as [_ Hall].
  assert (sql_key_eq (row_id r) id = true) as Hkey.
  { assert (In r (matching id t)) as Hin by (rewrite Hm; now left).
    apply List.filter_In in Hin. tauto. }
  apply (Forall2_filter_key (fun i => sql_key_eq i id)) in Hall.
  - fold (matching id t) (matching id t') in Hall. rewrite Hm in Hall.
    inversion Hall as [|? r' ? l' Hr Hnil Heq1 Heq2]; subst.
    inversion Hnil; subst. rewrite Hkey in Hr.
    destruct Hr as (Hid & Ht & Hc & _ & Hp & _ & Ha & Hd & Hvw & Hhp).
    exists (to_topic now' r'). rewrite getTopic_rows. rewrite <- Heq2.
    repeat split; try assumption.
    cbn [to_topic topic_preview]. unfold sql_text in Hp. now injection Hp as <-.
  - intros x x' Hx. destruct (sql_key_eq (row_id x) id); [now destruct Hx|now subst].
Qed.

(** X26. A record-a-view update of the one row with the id, whose [views]
    is below the INT maximum, answers success, and the next fetch of the id
    returns the topic with [views] one higher and nothing else changed. *)
Theorem recorded_view_reads_back (t : table) (now now' : Z) (id : jsstring)
    (updates : gmap string value) (r : row) :
  matching id t = [r] ->
  truthy (prop updates "incrementView") = true ->
  row_views r + 1 <= INT_MAX ->
  exists t',
    updateTopic (Some t) now id updates = (json Success, Some t')
    /\ getTopic (Some t') now' id
       = (json (OneTopic (to_topic now' (with_views (row_views r + 1) r))), Some t').
Proof.
  intros Hm Hv Hcap. rewrite (updateTopic_view_mode _ _ _ _ Hv).
  assert (views_fit id t = true) as ->.
  { unfold views_fit. apply forallb_forall. intros x Hx.
    destruct (sql_key_eq (row_id x) id) eqn:Hk; [|reflexivity]. cbn [negb orb].
    assert (In x (matching id t)) as Hin by (apply List.filter_In; now split).
    rewrite Hm in Hin. destruct Hin as [<-|[]]. now apply Z.leb_le. }
  eexists. split; [reflexivity|]. rewrite getTopic_rows.
  assert (forall rs, List.filter (fun x => sql_key_eq (row_id x) id)
                       (map (fun x => if sql_key_eq (row_id x) id
                                      then with_views (row_views x + 1) x else x) rs)
                     = map (fun x => with_views (row_views x + 1) x)
                         (List.filter (fun x => sql_key_eq (row_id x) id) rs)) as Hcomm.
  { induction rs as [|x rs IH]; [reflexivity|]. cbn [map List.filter].
    destruct (sql_key_eq (row_id x) id) eqn:Hk; cbn [with_views row_id]; rewrite Hk;
      [cbn [map]; now rewrite IH|exact IH]. }
  unfold matching at 1. unfold add_views. cbn [rows]. rewrite Hcomm.
  fold (matching id t). rewrite Hm. reflexivity.
Qed.

End ReadBackTheorems.

(** ** Repeating a replacement *)

Section Idempotence.
Context {E : Engine} {R : Runtime}.

Lemma update_where_again sel f rs rs' :
  update_where sel f rs = Return rs' ->
  (forall r r1, sel r = true -> f r = Return r1 -> sel r1 = true /\ f r1 = Return r1) ->
  update_where sel f rs' = Return rs'.
Proof.
  intros H Hf. revert rs' H. induction rs as [|r rs IH]; cbn [update_where]; intros rs' H.
  - now injection H as <-.
  - apply bind_Return_inv in H as (r1 & Hr1 & H).
    apply bind_Return_inv in H as (rest & Hrest & H). injection H as <-.
    cbn [update_where]. rewrite (IH _ Hrest).
    destruct (sel r) eqn:Hs.
    + destruct (Hf _ _ Hs Hr1) as [-> ->]. reflexivity.
    + injection Hr1 as <-. now rewrite Hs.
Qed.

(** X27. Repeating a successful full-replacement update with the same body
    succeeds again and leaves the table as the first one left it. *)
Theorem replacement_is_idempotent (t : table) (now now' : Z) (id : jsstring)
    (updates : gmap string value) (t' : table) :
  truthy (prop updates "incrementView") = false ->
  truthy (prop updates "incrementHelpful") = false ->
  updateTopic (Some t) now id updates = (json Success, Some t') ->
  updateTopic (Some t') now' id updates = (json Success, Some t').
Proof.
  intros Hv Hh H. unfold updateTopic in H |- *. rewrite Hv, Hh in H |- *.
  apply try_catch_200 in H; [|reflexivity].
  apply bind_Return_inv in H as (t0 & H0 & H). injection H as <-.
  apply bind_Return_inv in H0 as (ps & Hps & H0). rewrite Hps. cbn [bind].
  apply updateTopic_params_Return in Hps as ->.
  apply bind_Return_inv in H0 as ([res t1] & Hq & H0). injection H0 as <-.
  unfold pool_query in Hq |- *. rewrite parse_update in Hq |- *.
  unfold exec in Hq |- *.
  apply bind_Return_inv in Hq as (xt & -> & Hq).
  apply bind_Return_inv in Hq as (xc & -> & Hq).
  apply bind_Return_inv in Hq as (xk & -> & Hq).
  apply bind_Return_inv in Hq as (xp & -> & Hq).
  apply bind_Return_inv in Hq as (xco & -> & Hq).
  apply bind_Return_inv in Hq as (xa & -> & Hq).
  apply bind_Return_inv in Hq as (sel & Hsel & Hq). cbn [bind]. rewrite Hsel. cbn [bind].
  apply bind_Return_inv in Hq as (rs & Hrs & Hq). injection Hq as <- <-.
  cbn [rows auto_increment].
  rewrite (update_where_again _ _ _ _ Hrs); [reflexivity|].
  intros r r1 Hs Hr1. unfold sql_key in Hsel. injection Hsel as <-.
  pose proof Hr1 as Hr1'. bind_inv Hr1'. injection Hr1' as <-.
  cbn [row_id]. split; [exact Hs|].
  rewrite Hx; cbn [bind]. rewrite Hx0; cbn [bind]. rewrite Hx1; cbn [bind].
  rewrite Hx2; cbn [bind]. rewrite Hx3; cbn [bind]. rewrite Hx4; cbn [bind].
  rewrite Hx5; cbn [bind]. reflexivity.
Qed.

End Idempotence.

(** ** The further properties on the sample data *)

Lemma empty_filters_are_ignored_witness :
  empty_search_query !! "search" = Some (VStr [])
  /\ getTopics (Some catalogue) 0 (delete "search" empty_search_query)
     = (json (Topics (map (to_topic 0)
                        [sample_row 3 (lit "Three") (Some (lit "faq")) 200;
                         sample_row 1 (lit "One") (Some (lit "faq")) 100])),
        Some catalogue)
  /\ getTopics (Some catalogue) 0 empty_search_query
     = getTopics (Some catalogue) 0 (delete "search" empty_search_query).
Proof.
  assert (empty_search_query !! "search" = Some (VStr [])) as H by (vm_compute; reflexivity).
  split; [exact H|]. split; [vm_compute; reflexivity|].
  exact (empty_filters_are_ignored (Some catalogue) 0 empty_search_query "search"
           (or_introl eq_refl) H).
Defined.

Lemma limit_caps_listing_witness :
  (truthy (prop {[ "limit" := VStr (lit "2") ]} "limit") = true
   /\ getTopics (Some catalogue) 0 {[ "limit" := VStr (lit "2") ]}
      = (json (Topics (map (to_topic 0)
                         [sample_row 2 (lit "Two") (Some (lit "news")) 300;
                          sample_row 3 (lit "Three") (Some (lit "faq")) 200])),
         Some catalogue)
   /\ exists n, parseInt (prop {[ "limit" := VStr (lit "2") ]} "limit") = VNum n /\ 0 <= n
                /\ (length (map (to_topic 0)
                          [sample_row 2 (lit "Two") (Some (lit "news")) 300;
                           sample_row 3 (lit "Three") (Some (lit "faq")) 200])
                    <= Z.to_nat n)%nat)
  /\ (truthy (prop {[ "limit" := VStr (lit "many") ]} "limit") = true
      /\ parseInt (prop {[ "limit" := VStr (lit "many") ]} "limit") = VNaN
      /\ status (fst (getTopics (Some catalogue) 0 {[ "limit" := VStr (lit "many") ]})) = 500).
Proof.
  split.
  - assert (getTopics (Some catalogue) 0 {[ "limit" := VStr (lit "2") ]}
            = (json (Topics (map (to_topic 0)
                               [sample_row 2 (lit "Two") (Some (lit "news")) 300;
                                sample_row 3 (lit "Three") (Some (lit "faq")) 200])),
               Some catalogue)) as H by (vm_compute; reflexivity).
    split; [reflexivity|]. split; [exact H|].
    exact (proj1 (limit_caps_listing catalogue 0 {[ "limit" := VStr (lit "2") ]} eq_refl)
             _ _ H).
  - assert (parseInt (prop {[ "limit" := VStr (lit "many") ]} "limit") = VNaN) as H
      by (vm_compute; reflexivity).
    split; [reflexivity|]. split; [exact H|].
    exact (proj2 (limit_caps_listing catalogue 0 {[ "limit" := VStr (lit "many") ]} eq_refl)
             (or_introl H)).
Defined.

Lemma listing_is_ordered_witness :
  getTopics (Some catalogue) 0 ∅
  = (json (Topics (map (to_topic 0)
                     [sample_row 2 (lit "Two") (Some (lit "news")) 300;
                      sample_row 3 (lit "Three") (Some (lit "faq")) 200;
                      sample_row 1 (lit "One") (Some (lit "faq")) 100])),
     Some catalogue)
  /\ Sorted (fun a b => date_geb a b = true)
       (map topic_created_date
          (map (to_topic 0)
             [sample_row 2 (lit "Two") (Some (lit "news")) 300;
              sample_row 3 (lit "Three") (Some (lit "faq")) 200;
              sample_row 1 (lit "One") (Some (lit "faq")) 100])).
Proof.
  assert (getTopics (Some catalogue) 0 ∅
          = (json (Topics (map (to_topic 0)
                             [sample_row 2 (lit "Two") (Some (lit "news")) 300;
                              sample_row 3 (lit "Three") (Some (lit "faq")) 200;
                              sample_row 1 (lit "One") (Some (lit "faq")) 100])),
             Some catalogue)) as H by (vm_compute; reflexivity).
  split; [exact H|]. exact (listing_is_ordered catalogue 0 ∅ _ _ H).
Defined.


Lemma created_topic_is_listed_witness :
  createTopic (Some empty_table) 1793574000123 scenario_body
  = (json (Created 1), Some scenario_table)
  /\ exists l r,
      getTopics (Some scenario_table) 1793574000999 ∅ = (json (Topics l), Some scenario_table)
      /\ In r (rows scenario_table) /\ row_id r = 1
      /\ In (to_topic 1793574000999 r) l.
Proof.
  assert (createTopic (Some empty_table) 1793574000123 scenario_body
          = (json (Created 1), Some scenario_table)) as H by (vm_compute; reflexivity).
  split; [exact H|].
  exact (created_topic_is_listed empty_table 1793574000123 1793574000999 scenario_body
           1 scenario_table H).
Defined.

Lemma tag_free_unclosed : tag_free (lit "a < b").
Proof.
  repeat split; intros H; try discriminate H.
  rewrite list_elem_of_In. vm_compute. intuition discriminate.
Qed.

Lemma replace_tags_removes_every_tag_witness :
  tag_free (lit "a < b") /\ replace_tags (lit "a < b") = lit "a < b".
Proof.
  split; [exact tag_free_unclosed|].
  exact (proj2 (proj2 (proj2 (replace_tags_removes_every_tag (lit "a < b"))))
           tag_free_unclosed).
Defined.

Lemma preview_is_bounded_witness :
  createTopic_params scenario_body
  = Return [VStr (lit "X"); VUndefined; VStr []; VStr (lit "Hi there...");
            VStr (lit "<b>Hi</b> there"); VStr Usuario]
  /\ exists p,
      nth_error [VStr (lit "X"); VUndefined; VStr []; VStr (lit "Hi there...");
                 VStr (lit "<b>Hi</b> there"); VStr Usuario] 3 = Some (VStr p)
      /\ (length p <= 203)%nat
      /\ tag_free p
      /\ (truthy (prop scenario_body "content") = true -> lit "..." `suffix_of` p).
Proof.
  assert (createTopic_params scenario_body
          = Return [VStr (lit "X"); VUndefined; VStr []; VStr (lit "Hi there...");
                    VStr (lit "<b>Hi</b> there"); VStr Usuario]) as H
    by (vm_compute; reflexivity).
  split; [exact H|].
  exact (preview_is_bounded (lit "1") scenario_body _ (or_introl H)).
Defined.


Lemma missing_title_is_rejected_witness :
  prop untitled_body "title" = VUndefined
  /\ exists msg,
      createTopic (Some scenario_table) 1793574000999 untitled_body
      = (status_json 500 (Error msg), Some scenario_table).
Proof.
  split; [reflexivity|].
  exact (missing_title_is_rejected scenario_table 1793574000999 untitled_body
           (or_introl eq_refl)).
Defined.

Lemma empty_table_ok : table_ok empty_table.
Proof. split; constructor. Qed.

Lemma runs_keep_keys_unique_witness :
  table_ok empty_table
  /\ exists t',
      snd (serve (Some empty_table)
             [(1, POST_topics scenario_body); (2, DELETE_topic (lit "1"));
              (3, POST_topics scenario_body)]) = Some t'
      /\ table_ok t'.
Proof.
  split; [exact empty_table_ok|].
  exact (runs_keep_keys_unique empty_table _ empty_table_ok).
Defined.

Lemma views_count_every_call_witness :
  truthy (prop view_body "incrementView") = true
  /\ Forall (fun r => sql_key_eq (row_id r) (lit "1") = true ->
                      row_views r + Z.of_nat (length [10; 20; 30]) <= INT_MAX)
       (rows scenario_table)
  /\ serve (Some scenario_table)
       (map (fun now => (now, PUT_topic (lit "1") view_body)) [10; 20; 30])
     = (map (fun _ => json Success) [10; 20; 30],
        Some (add_views (Z.of_nat (length [10; 20; 30])) (lit "1") scenario_table)).
Proof.
  assert (Forall (fun r => sql_key_eq (row_id r) (lit "1") = true ->
                           row_views r + Z.of_nat (length [10; 20; 30]) <= INT_MAX)
            (rows scenario_table)) as H
    by (repeat constructor; intros _; vm_compute; discriminate).
  split; [reflexivity|]. split; [exact H|].
  exact (views_count_every_call scenario_table (lit "1") view_body [10; 20; 30] eq_refl H).
Defined.

Lemma increments_commute_witness :
  truthy (prop view_body "incrementView") = true
  /\ truthy (prop helpful_body "incrementView") = false
  /\ truthy (prop helpful_body "incrementHelpful") = true
  /\ snd (serve (Some scenario_table)
            [(1, PUT_topic (lit "1") view_body); (2, PUT_topic (lit "1") helpful_body)])
     = snd (serve (Some scenario_table)
              [(3, PUT_topic (lit "1") helpful_body); (4, PUT_topic (lit "1") view_body)]).
Proof.
  repeat (split; [reflexivity|]).
  exact (increments_commute scenario_table (lit "1") (lit "1") 1 2 3 4 view_body helpful_body
           eq_refl eq_refl eq_refl).
Defined.


Lemma keyword_with_commas_splits_witness :
  table_wf empty_table
  /\ prop comma_body "keywords"
     = VArr (map VStr [lit "a,b"; lit "c"])
  /\ join_strings (lit ", ") [lit "a,b"; lit "c"] <> []
  /\ createTopic (Some empty_table) 1793574000123
       comma_body
     = (json (Created 1), Some (stored_with (lit "a,b, c")))
  /\ exists tp,
      getTopic (Some (stored_with (lit "a,b, c"))) 1793574000999 (decimal 1)
      = (json (OneTopic tp), Some (stored_with (lit "a,b, c")))
      /\ length (topic_keywords tp)
         = (length [lit "a,b"; lit "c"]
            + list_sum (map (count_cu cu_comma) [lit "a,b"; lit "c"]))%nat.
Proof.
  assert (join_strings (lit ", ") [lit "a,b"; lit "c"] <> []) as Hne by discriminate.
  assert (createTopic (Some empty_table) 1793574000123
            comma_body
          = (json (Created 1), Some (stored_with (lit "a,b, c")))) as H
    by (vm_compute; reflexivity).
  split; [exact empty_table_wf|]. split; [reflexivity|]. split; [exact Hne|].
  split; [exact H|].
  exact (keyword_with_commas_splits empty_table 1793574000123 1793574000999 comma_body
           [lit "a,b"; lit "c"] 1 (stored_with (lit "a,b, c")) empty_table_wf eq_refl Hne H).
Defined.

Lemma keywords_text_passes_through_witness :
  table_wf empty_table
  /\ prop text_keywords_body "keywords" = VStr (lit "x , y")
  /\ createTopic (Some empty_table) 1793574000123
       text_keywords_body
     = (json (Created 1), Some (stored_with (lit "x , y")))
  /\ exists tp,
      getTopic (Some (stored_with (lit "x , y"))) 1793574000999 (decimal 1)
      = (json (OneTopic tp), Some (stored_with (lit "x , y")))
      /\ topic_keywords tp = map trim (split cu_comma (lit "x , y")).
Proof.
  assert (createTopic (Some empty_table) 1793574000123
            text_keywords_body
          = (json (Created 1), Some (stored_with (lit "x , y")))) as H
    by (vm_compute; reflexivity).
  split; [exact empty_table_wf|]. split; [reflexivity|]. split; [exact H|].
  exact (keywords_text_passes_through empty_table 1793574000123 1793574000999
           text_keywords_body 120%N (lit " , y") 1 (stored_with (lit "x , y"))
           empty_table_wf eq_refl H).
Defined.

Lemma updated_topic_reads_back_witness :
  matching (lit "1") scenario_table = [scenario_row]
  /\ truthy (prop title_body "incrementView") = false
  /\ truthy (prop title_body "incrementHelpful") = false
  /\ updateTopic (Some scenario_table) 1793574000999 (lit "1") title_body
     = (json Success, Some retitled_table)
  /\ exists tp,
      getTopic (Some retitled_table) 1793574001999 (lit "1")
      = (json (OneTopic tp), Some retitled_table)
      /\ sql_text (prop title_body "title") = Return (Some (topic_title tp))
      /\ sql_text (prop title_body "category") = Return (topic_category tp)
      /\ sql_text (js_or (prop title_body "author") (VStr Usuario)) = Return (topic_author tp)
      /\ topic_preview tp = Some (preview_of (prop title_body "content"))
      /\ topic_id tp = row_id scenario_row
      /\ topic_created_date tp = row_created_date scenario_row
      /\ topic_views tp = row_views scenario_row
      /\ topic_helpful tp = row_helpful scenario_row.
Proof.
  assert (matching (lit "1") scenario_table = [scenario_row]) as Hm by (vm_compute; reflexivity).
  assert (updateTopic (Some scenario_table) 1793574000999 (lit "1") title_body
          = (json Success, Some retitled_table)) as H by (vm_compute; reflexivity).
  split; [exact Hm|]. split; [reflexivity|]. split; [reflexivity|]. split; [exact H|].
  exact (updated_topic_reads_back scenario_table 1793574000999 1793574001999 (lit "1")
           title_body scenario_row retitled_table Hm eq_refl eq_refl H).
Defined.

Lemma recorded_view_reads_back_witness :
  matching (lit "1") scenario_table = [scenario_row]
  /\ truthy (prop view_body "incrementView") = true
  /\ row_views scenario_row + 1 <= INT_MAX
  /\ exists t',
      updateTopic (Some scenario_table) 1793574000999 (lit "1") view_body
      = (json Success, Some t')
      /\ getTopic (Some t') 1793574001999 (lit "1")
         = (json (OneTopic (to_topic 1793574001999
                              (with_views (row_views scenario_row + 1) scenario_row))),
            Some t').
Proof.
  assert (matching (lit "1") scenario_table = [scenario_row]) as Hm by (vm_compute; reflexivity).
  assert (row_views scenario_row + 1 <= INT_MAX) as Hcap by (vm_compute; discriminate).
  split; [exact Hm|]. split; [reflexivity|]. split; [exact Hcap|].
  exact (recorded_view_reads_back scenario_table 1793574000999 1793574001999 (lit "1")
           view_body scenario_row Hm eq_refl Hcap).
Defined.

Lemma replacement_is_idempotent_witness :
  truthy (prop title_body "incrementView") = false
  /\ truthy (prop title_body "incrementHelpful") = false
  /\ updateTopic (Some scenario_table) 1793574000999 (lit "1") title_body
     = (json Success, Some retitled_table)
  /\ updateTopic (Some retitled_table) 1793574001999 (lit "1") title_body
     = (json Success, Some retitled_table).
Proof.
  assert (updateTopic (Some scenario_table) 1793574000999 (lit "1") title_body
          = (json Success, Some retitled_table)) as H by (vm_compute; reflexivity).
  split; [reflexivity|]. split; [reflexivity|]. split; [exact H|].
  exact (replacement_is_idempotent scenario_table 1793574000999 1793574001999 (lit "1")
           title_body retitled_table eq_refl eq_refl H).
Defined.
